(** * gdtoolkit.common.ast: from the lark parse tree to the statement,
      function and class trees

    Shallow embedding of [gdtoolkit/common/ast.py].  The constructors of
    the Python classes become functions into an error monad: a raised
    exception is [Err], a constructed object is [Ok].  Objects are never
    mutated once their constructor has returned, so they are modelled by
    value; the loops that fill the list attributes are folds threading the
    object under construction. *)

From Stdlib Require Import String List Bool Arith Lia Permutation.
Import ListNotations.
Set Warnings "-register-all".
Local Open Scope string_scope.
Local Open Scope list_scope.

(** ** Parse trees

    A child of a lark [Tree] is either another [Tree] ([data], [children])
    or a [Token] (a string [value] tagged with the terminal [type]).  The
    code is duck-typed over both, hence one type.  The position metadata
    of a node is only read by [Statement.__repr__] and is left out. *)

Inductive Node : Type :=
| Tree (data : string) (children : list Node)
| Token (type : string) (value : string).

Definition isinstance_Tree (n : Node) : bool :=
  match n with Tree _ _ => true | Token _ _ => false end.

Fixpoint size (n : Node) : nat :=
  match n with
  | Tree _ children => S (list_sum (map size children))
  | Token _ _ => 1
  end.

(** ** Exceptions *)

Inductive error : Type :=
| NotImplementedError
| AttributeError
| IndexError
| Exception (msg : string).

Inductive result (A : Type) : Type :=
| Ok (a : A)
| Err (e : error).
Arguments Ok {A} a.
Arguments Err {A} e.

Definition bind {A B : Type} (m : result A) (k : A -> result B) : result B :=
  match m with
  | Ok a => k a
  | Err e => Err e
  end.

Notation "x <- m ;; k" := (bind m (fun x => k))
  (at level 61, m at next level, right associativity).

(** A list comprehension [[f(x) for x in l]]: left to right, the first
    exception aborts it. *)
Definition mapM {A B : Type} (f : A -> result B) : list A -> result (list B) :=
  fix go (l : list A) : result (list B) :=
    match l with
    | [] => Ok []
    | x :: rest =>
        y <- f x ;;
        ys <- go rest ;;
        Ok (y :: ys)
    end.

(** A [for x in l:] loop updating a state. *)
Definition foldM {A S : Type} (f : S -> A -> result S) : list A -> S -> result S :=
  fix go (l : list A) (s : S) : result S :=
    match l with
    | [] => Ok s
    | x :: rest =>
        s' <- f s x ;;
        go rest s'
    end.

(** [x in l] on strings. *)
Definition str_in (x : string) (l : list string) : bool :=
  existsb (String.eqb x) l.

(** The slice [l[n:]]; on a list shorter than [n] it is that list's empty
    tail.  It is [skipn], written so that its result is visibly a part of
    [l] (see [slice_from_skipn]). *)
Fixpoint slice_from {A : Type} (n : nat) (l : list A) : list A :=
  match n with
  | 0 => l
  | S n' =>
      match l with
      | [] => l
      | _ :: rest => slice_from n' rest
      end
  end.

(** ** Attribute access

    [x.value] exists on tokens only, [x.data] and [x.children] on trees
    only; on [None] (a helper that found nothing) none of them does. *)
Definition attr_value (x : option Node) : result string :=
  match x with
  | Some (Token _ value) => Ok value
  | _ => Err AttributeError
  end.

Definition attr_children (x : option Node) : result (list Node) :=
  match x with
  | Some (Tree _ children) => Ok children
  | _ => Err AttributeError
  end.

Definition attr_data (x : Node) : result string :=
  match x with
  | Tree data _ => Ok data
  | Token _ _ => Err AttributeError
  end.

(** [node.children] with what is done with it next; the children stay
    visibly part of [node], which the recursive constructors rely on. *)
Definition children_of {A : Type} (node : Node)
  (k : list Node -> result A) : result A :=
  match node with
  | Tree _ children => k children
  | Token _ _ => Err AttributeError
  end.

(** ** Statement *)

Module Statement.

Inductive t : Type :=
  Build {
    lark_node : Node;
    kind : string;
    sub_statements : list t;
    all_sub_statements : list t
  }.

(** [self.sub_statements += [Statement(n) for n in nodes]] *)
Definition extend (Statement_ : Node -> result t) (acc : list t)
  (nodes : list Node) : result (list t) :=
  new <- mapM Statement_ nodes ;;
  Ok (acc ++ new).

(** The closing loop of [_load_sub_statements], from the value
    [all_sub_statements] has when it starts. *)
Definition flatten (all_sub_statements0 sub_statements : list t) : list t :=
  fold_left
    (fun acc sub_statement =>
       acc ++ ([sub_statement] ++ all_sub_statements sub_statement))
    sub_statements all_sub_statements0.

(** [_load_sub_statements] on [self], as [__init__] has set it up.
    [Statement_] is the constructor [Statement], which the method calls
    on the nodes below. *)
Definition _load_sub_statements (Statement_ : Node -> result t) (self : t)
  : result t :=
  if kind self =? "class_def" then Err NotImplementedError
  else if kind self =? "property_body_def" then Err NotImplementedError
  else
    sub_statements <-
      (if str_in (kind self) ["func_def"; "static_func_def"] then
         children_of (lark_node self) (fun children =>
           mapM Statement_ (slice_from 1 children))
       else if kind self =? "if_stmt" then
         children_of (lark_node self) (fun children =>
           foldM (fun acc branch =>
                    children_of branch (fun bchildren =>
                      data <- attr_data branch ;;
                      if str_in data ["if_branch"; "elif_branch"] then
                        extend Statement_ acc (slice_from 1 bchildren)
                      else
                        extend Statement_ acc bchildren))
                 children (sub_statements self))
       else if kind self =? "while_stmt" then
         children_of (lark_node self) (fun children =>
           mapM Statement_ (slice_from 1 children))
       else if kind self =? "for_stmt" then
         children_of (lark_node self) (fun children =>
           mapM Statement_ (slice_from 2 children))
       else if kind self =? "match_stmt" then
         children_of (lark_node self) (fun children =>
           foldM (fun acc branch =>
                    children_of branch (fun bchildren =>
                      extend Statement_ acc (slice_from 1 bchildren)))
                 children (sub_statements self))
       else Ok (sub_statements self)) ;;
    Ok (Build (lark_node self) (kind self) sub_statements
          (flatten (all_sub_statements self) sub_statements)).

(** [Statement(node)] *)
Fixpoint init (node : Node) : result t :=
  match node with
  | Token _ _ => Err AttributeError
  | Tree data _ => _load_sub_statements init (Build node data [] [])
  end.

End Statement.

(** ** The helpers imported from [.utils]

    [ast.py] imports two lookup functions and uses each result through one
    attribute access ([.value], [.children]).  They are kept abstract: the
    development holds for every pair of helpers.  [None] is the helper
    finding nothing, on which the attribute access raises. *)

Class Utils : Type := {
  find_name_token_among_children : Node -> option Node;
  find_tree_among_children : string -> Node -> option Node
}.

(** ** Parameter ([Parameter_], [Parameter] being reserved) *)

Module Parameter_.

Record t : Type := Build { name : string }.

(** [node.children[0].value] *)
Definition init (node : Node) : result t :=
  children <- attr_children (Some node) ;;
  match children with
  | [] => Err IndexError
  | first :: _ =>
      value <- attr_value (Some first) ;;
      Ok (Build value)
  end.

End Parameter_.

(** ** Function

    [Function] extends [Statement]: [super] holds the attributes set by
    [Statement.__init__].  The [self] that the constructor puts at the
    head of [all_statements] is the object as a statement, that is
    [super]. *)

Module Function.

Record t : Type :=
  Build {
    super : Statement.t;
    name : string;
    parameters : list Parameter_.t;
    all_statements : list Statement.t
  }.

Section WithUtils.
Context {U : Utils}.

(** The filtered comprehension over [func_args.children]: the filter
    reads [c.data] and [Parameter(c)] is built, child by child. *)
Definition load_parameters : list Node -> result (list Parameter_.t) :=
  fix go (l : list Node) : result (list Parameter_.t) :=
    match l with
    | [] => Ok []
    | c :: rest =>
        data <- attr_data c ;;
        if negb (data =? "trailing_comma") then
          p <- Parameter_.init c ;;
          ps <- go rest ;;
          Ok (p :: ps)
        else go rest
    end.

Definition _load_data_from_func_def (self : t) (func_def : Node) : result t :=
  children <- attr_children (Some func_def) ;;
  match children with
  | [] => Err IndexError
  | func_header :: _ =>
      let name_token := find_name_token_among_children func_header in
      name <- attr_value name_token ;;
      let func_args := find_tree_among_children "func_args" func_header in
      args <- attr_children func_args ;;
      parameters <- load_parameters args ;;
      Ok (Build (super self) name parameters (all_statements self))
  end.

Definition init (func_def : Node) : result t :=
  super <- Statement.init func_def ;;
  let self :=
    Build super "" [] ([super] ++ Statement.all_sub_statements super) in
  _load_data_from_func_def self func_def.

End WithUtils.

End Function.

(** ** Class ([Class_], [Class] being reserved) *)

Module Class_.

Inductive t : Type :=
  Build {
    lark_node : Node;
    name : option string;
    sub_classes : list t;
    all_sub_classes : list t;
    functions : list Function.t;
    all_functions : list Function.t
  }.

Section WithUtils.
Context {U : Utils}.

(** One turn of the loop of [_load_data_from_node_children].  [rec_Class]
    is the constructor [Class], which the method calls back. *)
Definition load_child (rec_Class : Node -> result t) (self : t) (stmt : Node)
  : result t :=
  match stmt with
  | Token _ _ => Ok self
  | Tree data _ =>
      self <-
        (if data =? "class_def" then
           sub_class <- rec_Class stmt ;;
           Ok (Build (lark_node self) (name self)
                 (sub_classes self ++ [sub_class])
                 (all_sub_classes self
                    ++ ([sub_class] ++ all_sub_classes sub_class))
                 (functions self)
                 (all_functions self ++ all_functions sub_class))
         else Ok self) ;;
      if data =? "func_def" then
        function <- Function.init stmt ;;
        Ok (Build (lark_node self) (name self)
              (sub_classes self) (all_sub_classes self)
              (functions self ++ [function])
              (all_functions self ++ [function]))
      else Ok self
  end.

Definition _load_data_from_node_children (rec_Class : Node -> result t)
  (self : t) (node : Node) : result t :=
  match node with
  | Token _ _ => Err AttributeError
  | Tree _ children => foldM (load_child rec_Class) children self
  end.

Definition _load_data_from_class_def (rec_Class : Node -> result t)
  (self : t) (class_def : Node) : result t :=
  let name_token := find_name_token_among_children class_def in
  value <- attr_value name_token ;;
  _load_data_from_node_children rec_Class
    (Build (lark_node self) (Some value) (sub_classes self)
       (all_sub_classes self) (functions self) (all_functions self))
    class_def.

Fixpoint init (parse_tree : Node) : result t :=
  let self := Build parse_tree None [] [] [] [] in
  match parse_tree with
  | Token _ _ => Err AttributeError
  | Tree data _ =>
      if data =? "start" then
        _load_data_from_node_children init self parse_tree
      else if data =? "class_def" then
        _load_data_from_class_def init self parse_tree
      else Err (Exception "Cannot load class from that node")
  end.

End WithUtils.

End Class_.

(** ** AbstractSyntaxTree *)

Module AbstractSyntaxTree.

Record t : Type :=
  Build {
    root_class : Class_.t;
    all_classes : list Class_.t;
    all_functions : list Function.t
  }.

Definition init {U : Utils} (parse_tree : Node) : result t :=
  root_class <- Class_.init parse_tree ;;
  Ok (Build root_class
        ([root_class] ++ Class_.all_sub_classes root_class)
        (Class_.all_functions root_class)).

End AbstractSyntaxTree.

(** ** The helpers as the specification describes them *)

(** Modelled from the spec: [gdtoolkit/common/utils.py] is not among the
    available sources.  Section 6 describes find-name-token-among-children
    as locating the identifier token among a node's direct children, and
    find-tree-among-children as locating the first direct child subtree
    matching a given kind label.  Identifier tokens are taken to be the
    tokens of terminal type [NAME]. *)
Definition spec_find_name_token_among_children (tree : Node) : option Node :=
  match tree with
  | Token _ _ => None
  | Tree _ children =>
      find (fun child =>
              match child with
              | Token type _ => type =? "NAME"
              | Tree _ _ => false
              end) children
  end.

(** Modelled from the spec: the second helper of
    [gdtoolkit/common/utils.py], by section 6 the first direct child
    subtree whose kind is the given label. *)
Definition spec_find_tree_among_children (tree_name : string) (tree : Node)
  : option Node :=
  match tree with
  | Token _ _ => None
  | Tree _ children =>
      find (fun child =>
              match child with
              | Tree data _ => data =? tree_name
              | Token _ _ => false
              end) children
  end.

#[local] Instance spec_utils : Utils := {
  find_name_token_among_children := spec_find_name_token_among_children;
  find_tree_among_children := spec_find_tree_among_children
}.

(** ** Reference definitions

    What the specification's data model speaks of, defined on its own
    terms: the nodes a statement's direct sub-statements come from (the
    table of section 4.1), and the traversals of a statement tree. *)

Definition spec_if_branch_nodes (branch : Node) : result (list Node) :=
  match branch with
  | Token _ _ => Err AttributeError
  | Tree bdata bchildren =>
      if str_in bdata ["if_branch"; "elif_branch"] then Ok (skipn 1 bchildren)
      else Ok bchildren
  end.

Definition spec_match_branch_nodes (branch : Node) : result (list Node) :=
  match branch with
  | Token _ _ => Err AttributeError
  | Tree _ bchildren => Ok (skipn 1 bchildren)
  end.

Definition spec_sub_statement_nodes (node : Node) : result (list Node) :=
  match node with
  | Token _ _ => Err AttributeError
  | Tree kind children =>
      if str_in kind ["func_def"; "static_func_def"] then Ok (skipn 1 children)
      else if kind =? "if_stmt" then
        parts <- mapM spec_if_branch_nodes children ;; Ok (concat parts)
      else if kind =? "while_stmt" then Ok (skipn 1 children)
      else if kind =? "for_stmt" then Ok (skipn 2 children)
      else if kind =? "match_stmt" then
        parts <- mapM spec_match_branch_nodes children ;; Ok (concat parts)
      else Ok []
  end.

(** Depth-first pre-order listing of a statement tree, root first. *)
Fixpoint preorder (s : Statement.t) : list Statement.t :=
  s :: flat_map preorder (Statement.sub_statements s).

(** Number of statements reachable from [s] through [sub_statements],
    [s] itself not counted. *)
Fixpoint descendants (s : Statement.t) : nat :=
  list_sum (map (fun child => S (descendants child)) (Statement.sub_statements s)).

(** The kinds [Statement] has a rule for, and the two it refuses. *)
Definition recognized_kind (kind : string) : bool :=
  str_in kind
    ["func_def"; "static_func_def"; "if_stmt"; "while_stmt"; "for_stmt";
     "match_stmt"].

Definition disallowed_kind (kind : string) : bool :=
  str_in kind ["class_def"; "property_body_def"].

(** A trailing-comma marker among the children of a parameter list. *)
Definition is_trailing_comma (c : Node) : bool :=
  match c with
  | Tree data _ => data =? "trailing_comma"
  | Token _ _ => false
  end.

(** A parameter node and the parameter read from it: the node's first
    child is a token, whose value is the parameter's name. *)
Definition parameter_of (c : Node) (p : Parameter_.t) : Prop :=
  exists data type value rest,
    c = Tree data (Token type value :: rest) /\ Parameter_.name p = value.

(** A tree child of the given kind. *)
Definition is_kind (kind : string) (c : Node) : bool :=
  match c with
  | Tree data _ => data =? kind
  | Token _ _ => false
  end.

(** What a direct child of a class brings to the class's
    [all_functions]: a function definition, the function built from it; a
    class definition, all the functions of the class built from it;
    anything else, nothing. *)
Definition contributes {U : Utils} (child : Node) (fs : list Function.t)
  : Prop :=
  if is_kind "class_def" child then
    exists sub_class,
      Class_.init child = Ok sub_class /\ fs = Class_.all_functions sub_class
  else if is_kind "func_def" child then
    exists function, Function.init child = Ok function /\ fs = [function]
  else fs = [].

(** ** Sample parse trees

    The file of the specification's end-to-end example: a class [Foo] with
    a function [bar(a, b, )], then a function [baz] whose body is one
    conditional. *)

Definition sample_pass : Node := Tree "pass_stmt" [].

Definition sample_if_stmt : Node :=
  Tree "if_stmt"
    [Tree "if_branch" [Token "NAME" "cond"; sample_pass];
     Tree "elif_branch" [Token "NAME" "cond2"; Tree "return_stmt" []];
     Tree "else_branch" [Tree "break_stmt" []]].

Definition sample_func_args : Node :=
  Tree "func_args"
    [Tree "func_arg_regular" [Token "NAME" "a"];
     Tree "func_arg_regular" [Token "NAME" "b"];
     Tree "trailing_comma" []].

Definition sample_bar : Node :=
  Tree "func_def"
    [Tree "func_header" [Token "NAME" "bar"; sample_func_args]; sample_pass].

Definition sample_baz : Node :=
  Tree "func_def"
    [Tree "func_header" [Token "NAME" "baz"; Tree "func_args" []];
     sample_if_stmt].

Definition sample_class_def : Node :=
  Tree "class_def" [Token "NAME" "Foo"; sample_bar].

Definition sample_file : Node :=
  Tree "start" [sample_class_def; Token "_NL" ""; sample_baz].

(** The objects the constructors build from the sample trees, with the
    helpers as the specification describes them. *)

Definition sample_pass_statement : Statement.t :=
  Statement.Build sample_pass "pass_stmt" [] [].

Definition sample_return_statement : Statement.t :=
  Statement.Build (Tree "return_stmt" []) "return_stmt" [] [].

Definition sample_break_statement : Statement.t :=
  Statement.Build (Tree "break_stmt" []) "break_stmt" [] [].

Definition sample_if_statement : Statement.t :=
  let branches :=
    [sample_pass_statement; sample_return_statement; sample_break_statement] in
  Statement.Build sample_if_stmt "if_stmt" branches branches.

Definition sample_bar_statement : Statement.t :=
  Statement.Build sample_bar "func_def"
    [sample_pass_statement] [sample_pass_statement].

Definition sample_baz_statement : Statement.t :=
  Statement.Build sample_baz "func_def" [sample_if_statement]
    [sample_if_statement; sample_pass_statement; sample_return_statement;
     sample_break_statement].

Definition sample_bar_function : Function.t :=
  Function.Build sample_bar_statement "bar"
    [Parameter_.Build "a"; Parameter_.Build "b"]
    [sample_bar_statement; sample_pass_statement].

Definition sample_baz_function : Function.t :=
  Function.Build sample_baz_statement "baz" []
    [sample_baz_statement; sample_if_statement; sample_pass_statement;
     sample_return_statement; sample_break_statement].

Definition sample_Foo : Class_.t :=
  Class_.Build sample_class_def (Some "Foo") [] []
    [sample_bar_function] [sample_bar_function].

Definition sample_root_class : Class_.t :=
  Class_.Build sample_file None [sample_Foo] [sample_Foo]
    [sample_baz_function] [sample_bar_function; sample_baz_function].

Definition sample_ast : AbstractSyntaxTree.t :=
  AbstractSyntaxTree.Build sample_root_class
    [sample_root_class; sample_Foo]
    [sample_bar_function; sample_baz_function].

(** ** Reference definitions for class trees *)

(** Depth-first pre-order listing of a class tree, root first. *)
Fixpoint class_preorder (c : Class_.t) : list Class_.t :=
  c :: flat_map class_preorder (Class_.sub_classes c).

(** Number of classes reachable from [c] through [sub_classes], [c]
    itself not counted. *)
Fixpoint class_descendants (c : Class_.t) : nat :=
  list_sum (map (fun sc => S (class_descendants sc)) (Class_.sub_classes c)).

(** The children the loop of a class acts on. *)
Definition is_class_member (c : Node) : bool :=
  is_kind "class_def" c || is_kind "func_def" c.

(** The kinds whose rule is a slice of the children, and where the slice
    starts. *)
Definition slice_kind (kind : string) : bool :=
  str_in kind ["func_def"; "static_func_def"; "while_stmt"; "for_stmt"].

Definition slice_start (kind : string) : nat :=
  if kind =? "for_stmt" then 2 else 1.

(** * Properties *)

(** ** The error monad and the loops *)

Lemma bind_Ok {A B : Type} (m : result A) (k : A -> result B) (b : B) :
  bind m k = Ok b <-> exists a, m = Ok a /\ k a = Ok b.
Proof.
  destruct m as [a|e]; simpl; split.
  - intros H. exists a. auto.
  - intros (a' & Ha & Hk). injection Ha as ->. exact Hk.
  - discriminate.
  - intros (a' & Ha & _). discriminate.
Qed.

Lemma bind_assoc {A B C : Type} (m : result A) (k : A -> result B)
  (k' : B -> result C) :
  bind (bind m k) k' = bind m (fun a => bind (k a) k').
Proof. destruct m; reflexivity. Qed.

Lemma bind_ext {A B : Type} (m : result A) (k k' : A -> result B) :
  (forall a, k a = k' a) -> bind m k = bind m k'.
Proof. intros H. destruct m; simpl; auto. Qed.

Lemma slice_from_skipn {A : Type} (n : nat) (l : list A) :
  slice_from n l = skipn n l.
Proof.
  revert l. induction n as [|n IH]; intros [|x l]; simpl; auto.
Qed.

Lemma mapM_cons {A B : Type} (f : A -> result B) (x : A) (l : list A) :
  mapM f (x :: l) = (y <- f x ;; ys <- mapM f l ;; Ok (y :: ys)).
Proof. reflexivity. Qed.

Lemma mapM_app {A B : Type} (f : A -> result B) (l1 l2 : list A) :
  mapM f (l1 ++ l2) =
  (ys1 <- mapM f l1 ;; ys2 <- mapM f l2 ;; Ok (ys1 ++ ys2)).
Proof.
  induction l1 as [|x l1 IH].
  - simpl. destruct (mapM f l2); reflexivity.
  - rewrite <- app_comm_cons, !mapM_cons, IH.
    destruct (f x) as [y|e]; simpl; [|reflexivity].
    destruct (mapM f l1) as [ys1|e]; simpl; [|reflexivity].
    destruct (mapM f l2) as [ys2|e]; simpl; reflexivity.
Qed.

Lemma mapM_Ok_Forall2 {A B : Type} (f : A -> result B) (l : list A)
  (ys : list B) :
  mapM f l = Ok ys <-> Forall2 (fun x y => f x = Ok y) l ys.
Proof.
  revert ys. induction l as [|x l IH]; intros ys.
  - simpl. split.
    + intros [= <-]. constructor.
    + intros H. inversion H. reflexivity.
  - rewrite mapM_cons. split.
    + intros H. apply bind_Ok in H as (y & Hy & H).
      apply bind_Ok in H as (ys' & Hys & [= <-]).
      constructor; [exact Hy | apply IH, Hys].
    + intros H. inversion H as [|? y ? ys' Hy Hys]; subst.
      rewrite Hy. simpl. apply IH in Hys. rewrite Hys. reflexivity.
Qed.

Lemma mapM_concat {A B : Type} (f : A -> result B) (ls : list (list A)) :
  mapM f (concat ls) = (parts <- mapM (mapM f) ls ;; Ok (concat parts)).
Proof.
  induction ls as [|l ls IH]; [reflexivity|].
  simpl concat. rewrite mapM_app, mapM_cons, IH.
  destruct (mapM f l) as [ys|e]; simpl; [|reflexivity].
  destruct (mapM (mapM f) ls) as [parts|e]; simpl; reflexivity.
Qed.

Lemma foldM_cons {A S : Type} (f : S -> A -> result S) (x : A) (l : list A)
  (s : S) :
  foldM f (x :: l) s = (s' <- f s x ;; foldM f l s').
Proof. reflexivity. Qed.

Lemma foldM_app {A S : Type} (f : S -> A -> result S) (l1 l2 : list A) (s : S) :
  foldM f (l1 ++ l2) s = (s' <- foldM f l1 s ;; foldM f l2 s').
Proof.
  revert s. induction l1 as [|x l1 IH]; intros s; [reflexivity|].
  rewrite <- app_comm_cons, !foldM_cons, bind_assoc.
  apply bind_ext. intros a. apply IH.
Qed.

Lemma foldM_ext {A S : Type} (f g : S -> A -> result S) (l : list A) (s : S) :
  (forall s x, f s x = g s x) -> foldM f l s = foldM g l s.
Proof.
  intros H. revert s. induction l as [|x l IH]; intros s; [reflexivity|].
  rewrite !foldM_cons, H. apply bind_ext. intros a. apply IH.
Qed.

(** A loop that only appends what it builds from each element builds the
    parts in turn and concatenates them. *)
Lemma foldM_append {A B : Type} (g : A -> result (list B)) (l : list A)
  (acc : list B) :
  foldM (fun acc x => new <- g x ;; Ok (acc ++ new)) l acc =
  (parts <- mapM g l ;; Ok (acc ++ concat parts)).
Proof.
  revert acc. induction l as [|x l IH]; intros acc.
  - simpl. rewrite app_nil_r. reflexivity.
  - rewrite foldM_cons, mapM_cons.
    destruct (g x) as [new|e]; simpl; [|reflexivity].
    rewrite IH.
    destruct (mapM g l) as [parts|e]; simpl; [|reflexivity].
    rewrite app_assoc. reflexivity.
Qed.

(** ** Sizes of nodes *)

Lemma In_size_le (c : Node) (l : list Node) :
  In c l -> size c <= list_sum (map size l).
Proof.
  induction l as [|x l IH]; simpl; [tauto|].
  intros [->|H]; [lia|]. apply IH in H. lia.
Qed.

Lemma In_children_size (c : Node) (d : string) (children : list Node) :
  In c children -> size c < size (Tree d children).
Proof. intros H. apply In_size_le in H. simpl. lia. Qed.

Lemma In_skipn {A : Type} (n : nat) (x : A) (l : list A) :
  In x (skipn n l) -> In x l.
Proof.
  intros H. rewrite <- (firstn_skipn n l). apply in_or_app. right. exact H.
Qed.

(** ** Statement: what a successful construction is *)

Lemma Statement_ind_nested (P : Statement.t -> Prop) :
  (forall node kind subs all,
      Forall P subs -> P (Statement.Build node kind subs all)) ->
  forall s, P s.
Proof.
  intros step.
  fix IH 1.
  intros [node kind subs all]. apply step.
  induction subs as [|c subs IHsubs]; constructor.
  - apply IH.
  - exact IHsubs.
Qed.

Lemma flatten_flat_map (acc subs : list Statement.t) :
  Statement.flatten acc subs =
  acc ++ flat_map (fun c => [c] ++ Statement.all_sub_statements c) subs.
Proof.
  unfold Statement.flatten. revert acc.
  induction subs as [|c subs IH]; intros acc; simpl.
  - rewrite app_nil_r. reflexivity.
  - rewrite IH. rewrite <- app_assoc. reflexivity.
Qed.

Lemma init_Tree (data : string) (children : list Node) :
  Statement.init (Tree data children) =
  Statement._load_sub_statements Statement.init
    (Statement.Build (Tree data children) data [] []).
Proof. reflexivity. Qed.

(** Branch loops: the parts built from the branches are the parts built
    from the branches' nodes. *)
Lemma mapM_then_Ok {A B C : Type} (h : A -> result (list B))
  (f : B -> result C) (l : list A) (parts : list (list C)) :
  mapM (fun x => nodes <- h x ;; mapM f nodes) l = Ok parts <->
  exists nparts, mapM h l = Ok nparts /\ mapM (mapM f) nparts = Ok parts.
Proof.
  revert parts. induction l as [|x l IH]; intros parts.
  - simpl. split.
    + intros [= <-]. exists []. auto.
    + intros (nparts & [= <-] & H). exact H.
  - rewrite !mapM_cons. split.
    + intros H. apply bind_Ok in H as (ys & Hx & H).
      apply bind_Ok in Hx as (nodes & Hh & Hf).
      apply bind_Ok in H as (parts' & Hl & [= <-]).
      apply IH in Hl as (nparts & Hn & Hp).
      exists (nodes :: nparts). rewrite Hh, Hn. split; [reflexivity|].
      rewrite mapM_cons, Hf, Hp. reflexivity.
    + intros (nparts & Hn & Hp).
      apply bind_Ok in Hn as (nodes & Hh & Hn).
      apply bind_Ok in Hn as (nparts' & Hn & [= <-]).
      rewrite mapM_cons in Hp.
      apply bind_Ok in Hp as (ys & Hf & Hp).
      apply bind_Ok in Hp as (parts' & Hp & [= <-]).
      rewrite Hh. simpl. rewrite Hf. simpl.
      assert (Hl : mapM (fun x0 => nodes0 <- h x0 ;; mapM f nodes0) l = Ok parts')
        by (apply IH; eauto).
      rewrite Hl. reflexivity.
Qed.

Lemma branch_loop_Ok {A B C : Type} (h : A -> result (list B))
  (f : B -> result C) (l : list A) (subs : list C) :
  foldM (fun acc x => new <- (nodes <- h x ;; mapM f nodes) ;; Ok (acc ++ new))
    l [] = Ok subs <->
  exists nodes, (nparts <- mapM h l ;; Ok (concat nparts)) = Ok nodes
                /\ mapM f nodes = Ok subs.
Proof.
  rewrite foldM_append. split.
  - intros H. apply bind_Ok in H as (parts & Hparts & [= <-]).
    apply mapM_then_Ok in Hparts as (nparts & Hn & Hp).
    exists (concat nparts). rewrite Hn. split; [reflexivity|].
    rewrite mapM_concat, Hp. reflexivity.
  - intros (nodes & Hn & Hf).
    apply bind_Ok in Hn as (nparts & Hn & [= <-]).
    rewrite mapM_concat in Hf.
    apply bind_Ok in Hf as (parts & Hp & [= <-]).
    assert (H : mapM (fun x => nodes <- h x ;; mapM f nodes) l = Ok parts)
      by (apply mapM_then_Ok; eauto).
    rewrite H. reflexivity.
Qed.

Lemma if_branch_loop (children : list Node) (acc : list Statement.t) :
  foldM (fun acc branch =>
           children_of branch (fun bchildren =>
             data <- attr_data branch ;;
             if str_in data ["if_branch"; "elif_branch"] then
               Statement.extend Statement.init acc (slice_from 1 bchildren)
             else Statement.extend Statement.init acc bchildren))
        children acc =
  foldM (fun acc branch =>
           new <- (nodes <- spec_if_branch_nodes branch ;;
                   mapM Statement.init nodes) ;;
           Ok (acc ++ new))
        children acc.
Proof.
  apply foldM_ext. intros s [bdata bchildren | ty v]; [|reflexivity].
  unfold children_of, attr_data, spec_if_branch_nodes, Statement.extend.
  cbn [bind]. destruct (str_in bdata _); cbn [bind];
    rewrite ?slice_from_skipn; reflexivity.
Qed.

Lemma match_branch_loop (children : list Node) (acc : list Statement.t) :
  foldM (fun acc branch =>
           children_of branch (fun bchildren =>
             Statement.extend Statement.init acc (slice_from 1 bchildren)))
        children acc =
  foldM (fun acc branch =>
           new <- (nodes <- spec_match_branch_nodes branch ;;
                   mapM Statement.init nodes) ;;
           Ok (acc ++ new))
        children acc.
Proof.
  apply foldM_ext. intros s [bdata bchildren | ty v]; [|reflexivity].
  unfold children_of, spec_match_branch_nodes, Statement.extend.
  cbn [bind]. rewrite slice_from_skipn. reflexivity.
Qed.

Lemma disallowed_kind_false (kind : string) :
  disallowed_kind kind = false <->
  (kind =? "class_def") = false /\ (kind =? "property_body_def") = false.
Proof.
  unfold disallowed_kind, str_in. cbn [existsb].
  rewrite orb_false_r, orb_false_iff. reflexivity.
Qed.

(** A statement is built exactly when its kind is not refused and every
    node of its rule builds; it then holds those statements, and the
    flattening of them. *)
Lemma Statement_init_Ok (data : string) (children : list Node)
  (s : Statement.t) :
  Statement.init (Tree data children) = Ok s <->
  disallowed_kind data = false /\
  exists nodes subs,
    spec_sub_statement_nodes (Tree data children) = Ok nodes /\
    mapM Statement.init nodes = Ok subs /\
    s = Statement.Build (Tree data children) data subs
          (flat_map (fun c => [c] ++ Statement.all_sub_statements c) subs).
Proof.
  rewrite init_Tree, disallowed_kind_false.
  unfold Statement._load_sub_statements, spec_sub_statement_nodes.
  cbn [Statement.kind Statement.lark_node Statement.sub_statements
       Statement.all_sub_statements children_of].
  destruct (data =? "class_def").
  { split; [discriminate | intros [[? _] _]; discriminate]. }
  destruct (data =? "property_body_def").
  { split; [discriminate | intros [[_ ?] _]; discriminate]. }
  rewrite bind_Ok.
  setoid_rewrite flatten_flat_map. cbn [app].
  assert (Hfinal : forall (m : result (list Statement.t)) (r : result (list Node)),
            (forall subs, m = Ok subs <->
                          exists nodes, r = Ok nodes
                                        /\ mapM Statement.init nodes = Ok subs) ->
            (exists a, m = Ok a /\
               Ok (Statement.Build (Tree data children) data a
                     (flat_map (fun c => c :: Statement.all_sub_statements c) a))
               = Ok s) <->
            (false = false /\ false = false) /\
            exists nodes subs, r = Ok nodes /\
              mapM Statement.init nodes = Ok subs /\
              s = Statement.Build (Tree data children) data subs
                    (flat_map (fun c => c :: Statement.all_sub_statements c) subs)).
  { intros m r Hm. split.
    - intros (a & Ha & [= <-]). split; [auto|].
      apply Hm in Ha as (nodes & Hr & Hn). eauto 6.
    - intros (_ & nodes & subs & Hr & Hn & ->).
      exists subs. split; [|reflexivity]. apply Hm. eauto. }
  assert (Hplain : forall l subs,
            mapM Statement.init l = Ok subs <->
            exists nodes, Ok l = Ok nodes /\ mapM Statement.init nodes = Ok subs).
  { intros l subs. split; [eauto|]. intros (nodes & [= <-] & H). exact H. }
  destruct (str_in data ["func_def"; "static_func_def"]).
  { apply Hfinal. intros subs. rewrite slice_from_skipn. apply Hplain. }
  destruct (data =? "if_stmt").
  { apply Hfinal. intros subs. rewrite if_branch_loop. apply branch_loop_Ok. }
  destruct (data =? "while_stmt").
  { apply Hfinal. intros subs. rewrite slice_from_skipn. apply Hplain. }
  destruct (data =? "for_stmt").
  { apply Hfinal. intros subs. rewrite slice_from_skipn. apply Hplain. }
  destruct (data =? "match_stmt").
  { apply Hfinal. intros subs. rewrite match_branch_loop. apply branch_loop_Ok. }
  apply Hfinal. intros subs. split.
  - intros [= <-]. exists []. auto.
  - intros (nodes & [= <-] & H). simpl in H. congruence.
Qed.

Lemma skipn_children_smaller (n : nat) (d : string) (children : list Node) :
  Forall (fun c => size c < size (Tree d children)) (skipn n children).
Proof.
  apply Forall_forall. intros c Hc.
  apply In_children_size, (In_skipn n), Hc.
Qed.

Lemma branch_nodes_smaller (h : Node -> result (list Node))
  (children : list Node) (parts : list (list Node)) :
  (forall b p, h b = Ok p -> Forall (fun c => size c < size b) p) ->
  mapM h children = Ok parts ->
  Forall (fun c => size c < list_sum (map size children)) (concat parts).
Proof.
  intros Hh. revert parts.
  induction children as [|b children IH]; intros parts H.
  - injection H as <-. constructor.
  - rewrite mapM_cons in H.
    apply bind_Ok in H as (p & Hp & H).
    apply bind_Ok in H as (parts' & Hparts & [= <-]).
    simpl. apply Forall_app. split.
    + eapply Forall_impl; [|apply (Hh _ _ Hp)]. simpl. intros; lia.
    + eapply Forall_impl; [|apply (IH _ Hparts)]. simpl. intros; lia.
Qed.

Lemma spec_if_branch_nodes_smaller (b : Node) (p : list Node) :
  spec_if_branch_nodes b = Ok p -> Forall (fun c => size c < size b) p.
Proof.
  destruct b as [bdata bchildren | ty v]; [|discriminate].
  unfold spec_if_branch_nodes. destruct (str_in bdata _); intros [= <-].
  - apply (skipn_children_smaller 1).
  - apply (skipn_children_smaller 0).
Qed.

Lemma spec_match_branch_nodes_smaller (b : Node) (p : list Node) :
  spec_match_branch_nodes b = Ok p -> Forall (fun c => size c < size b) p.
Proof.
  destruct b as [bdata bchildren | ty v]; [|discriminate].
  intros [= <-]. apply (skipn_children_smaller 1).
Qed.

(** The nodes of a statement's rule lie strictly below it. *)
Lemma spec_sub_statement_nodes_smaller (node : Node) (nodes : list Node) :
  spec_sub_statement_nodes node = Ok nodes ->
  Forall (fun c => size c < size node) nodes.
Proof.
  destruct node as [kind children | ty v]; [|discriminate].
  unfold spec_sub_statement_nodes.
  assert (Hbranches : forall h,
             (forall b p, h b = Ok p -> Forall (fun c => size c < size b) p) ->
             (parts <- mapM h children ;; Ok (concat parts)) = Ok nodes ->
             Forall (fun c => size c < size (Tree kind children)) nodes).
  { intros h Hh H. apply bind_Ok in H as (parts & Hparts & [= <-]).
    eapply Forall_impl; [|apply (branch_nodes_smaller h _ _ Hh Hparts)].
    simpl. intros; lia. }
  destruct (str_in kind ["func_def"; "static_func_def"]).
  { intros [= <-]. apply (skipn_children_smaller 1). }
  destruct (kind =? "if_stmt").
  { apply Hbranches, spec_if_branch_nodes_smaller. }
  destruct (kind =? "while_stmt").
  { intros [= <-]. apply (skipn_children_smaller 1). }
  destruct (kind =? "for_stmt").
  { intros [= <-]. apply (skipn_children_smaller 2). }
  destruct (kind =? "match_stmt").
  { apply Hbranches, spec_match_branch_nodes_smaller. }
  intros [= <-]. constructor.
Qed.

(** Induction over successful constructions: a property of statements
    that passes from the direct sub-statements to the statement holds of
    everything [Statement] builds. *)
Lemma Statement_init_ind (P : Statement.t -> Prop) :
  (forall node kind subs,
      Forall P subs ->
      P (Statement.Build node kind subs
           (flat_map (fun c => [c] ++ Statement.all_sub_statements c) subs))) ->
  forall node s, Statement.init node = Ok s -> P s.
Proof.
  intros step node.
  induction node as [node IH] using (induction_ltof1 _ size).
  unfold ltof in IH. intros s H.
  destruct node as [data children | ty v]; [|discriminate].
  apply Statement_init_Ok in H as (_ & nodes & subs & Hnodes & Hsubs & ->).
  apply step.
  apply spec_sub_statement_nodes_smaller in Hnodes.
  apply mapM_Ok_Forall2 in Hsubs.
  clear step. induction Hsubs as [|c sub nodes subs Hc _ IHsubs]; constructor.
  - apply (IH c); [|exact Hc]. inversion Hnodes; assumption.
  - apply IHsubs. inversion Hnodes; assumption.
Qed.

(** ** Statement: the flattened list *)

Lemma flat_map_ext_Forall {A B : Type} (f g : A -> list B) (l : list A) :
  Forall (fun x => f x = g x) l -> flat_map f l = flat_map g l.
Proof.
  induction 1 as [|x l Hx _ IH]; simpl; [reflexivity|].
  rewrite Hx, IH. reflexivity.
Qed.

Lemma length_flat_map {A B : Type} (f : A -> list B) (l : list A) :
  length (flat_map f l) = list_sum (map (fun x => length (f x)) l).
Proof.
  induction l as [|x l IH]; simpl; [reflexivity|].
  rewrite length_app, IH. reflexivity.
Qed.

Lemma preorder_eq (s : Statement.t) :
  preorder s = s :: flat_map preorder (Statement.sub_statements s).
Proof. destruct s; reflexivity. Qed.

Lemma descendants_eq (s : Statement.t) :
  descendants s =
  list_sum (map (fun c => S (descendants c)) (Statement.sub_statements s)).
Proof. destruct s; reflexivity. Qed.

Lemma length_preorder (s : Statement.t) :
  length (preorder s) = S (descendants s).
Proof.
  induction s as [node kind subs all IH] using Statement_ind_nested.
  rewrite preorder_eq, descendants_eq. cbn [Statement.sub_statements length].
  f_equal. rewrite length_flat_map.
  induction IH as [|c subs Hc _ IHsubs]; simpl; [reflexivity|].
  rewrite Hc, IHsubs. reflexivity.
Qed.

(** What [Statement] builds lists, below itself, the pre-order listings
    of its direct sub-statements. *)
Lemma built_all_sub_statements (node : Node) (s : Statement.t) :
  Statement.init node = Ok s ->
  Statement.all_sub_statements s =
  flat_map preorder (Statement.sub_statements s).
Proof.
  revert node s. apply Statement_init_ind.
  intros node kind subs IH.
  cbn [Statement.sub_statements Statement.all_sub_statements].
  apply flat_map_ext_Forall.
  eapply Forall_impl; [|exact IH].
  intros c Hc. rewrite preorder_eq, <- Hc. reflexivity.
Qed.

(** C1. After [Statement(node)] has returned [s], [s.all_sub_statements]
    is the concatenation over [s.sub_statements], in order, of
    [[child] + child.all_sub_statements]; it has as many entries as there
    are statements reachable below [s], and lists them in depth-first
    pre-order. *)
Theorem all_sub_statements_preorder (node : Node) (s : Statement.t) :
  Statement.init node = Ok s ->
  Statement.all_sub_statements s =
    flat_map (fun child => [child] ++ Statement.all_sub_statements child)
      (Statement.sub_statements s)
  /\ length (Statement.all_sub_statements s) = descendants s
  /\ Statement.all_sub_statements s =
       flat_map preorder (Statement.sub_statements s).
Proof.
  intros H.
  pose proof (built_all_sub_statements _ _ H) as Hpre.
  split; [|split].
  - destruct node as [data children | ty v]; [|discriminate].
    apply Statement_init_Ok in H as (_ & nodes & subs & _ & _ & ->).
    reflexivity.
  - rewrite Hpre, length_flat_map, descendants_eq.
    f_equal. apply map_ext. intros c. apply length_preorder.
  - exact Hpre.
Qed.

Lemma all_sub_statements_preorder_witness :
  Statement.init sample_baz = Ok sample_baz_statement
  /\ Statement.all_sub_statements sample_baz_statement =
       flat_map (fun child => [child] ++ Statement.all_sub_statements child)
         (Statement.sub_statements sample_baz_statement)
  /\ length (Statement.all_sub_statements sample_baz_statement)
     = descendants sample_baz_statement
  /\ Statement.all_sub_statements sample_baz_statement =
       flat_map preorder (Statement.sub_statements sample_baz_statement).
Proof.
  split; [reflexivity|].
  apply (all_sub_statements_preorder sample_baz sample_baz_statement).
  reflexivity.
Defined.

(** ** Statement: the rules kind by kind *)

Lemma mapM_then_eq {A B C : Type} (h : A -> result (list B))
  (f : B -> result C) (l : list A) (nparts : list (list B)) :
  mapM h l = Ok nparts ->
  mapM (fun x => nodes <- h x ;; mapM f nodes) l = mapM (mapM f) nparts.
Proof.
  revert nparts. induction l as [|x l IH]; intros nparts H.
  - injection H as <-. reflexivity.
  - rewrite mapM_cons in H.
    apply bind_Ok in H as (nodes & Hx & H).
    apply bind_Ok in H as (nparts' & Hl & [= <-]).
    rewrite !mapM_cons, Hx, (IH _ Hl). reflexivity.
Qed.

Lemma branch_loop_eq {A B C : Type} (h : A -> result (list B))
  (f : B -> result C) (l : list A) (nodes : list B) :
  (nparts <- mapM h l ;; Ok (concat nparts)) = Ok nodes ->
  foldM (fun acc x => new <- (nodes <- h x ;; mapM f nodes) ;; Ok (acc ++ new))
    l [] = mapM f nodes.
Proof.
  intros H. apply bind_Ok in H as (nparts & Hn & [= <-]).
  rewrite foldM_append, (mapM_then_eq _ _ _ _ Hn), mapM_concat.
  reflexivity.
Qed.

(** When the nodes of the rule can be read off, construction is the
    construction of those nodes in order, errors included. *)
Lemma Statement_init_nodes (data : string) (children nodes : list Node) :
  disallowed_kind data = false ->
  spec_sub_statement_nodes (Tree data children) = Ok nodes ->
  Statement.init (Tree data children) =
  (subs <- mapM Statement.init nodes ;;
   Ok (Statement.Build (Tree data children) data subs
         (flat_map (fun c => [c] ++ Statement.all_sub_statements c) subs))).
Proof.
  intros Hd. apply disallowed_kind_false in Hd as [Hc Hp].
  rewrite init_Tree.
  unfold Statement._load_sub_statements, spec_sub_statement_nodes.
  cbn [Statement.kind Statement.lark_node Statement.sub_statements
       Statement.all_sub_statements children_of].
  rewrite Hc, Hp.
  assert (Hfinal : forall m : result (list Statement.t),
            m = mapM Statement.init nodes ->
            (sub_statements <- m ;;
             Ok (Statement.Build (Tree data children) data sub_statements
                   (Statement.flatten [] sub_statements))) =
            (subs <- mapM Statement.init nodes ;;
             Ok (Statement.Build (Tree data children) data subs
                   (flat_map (fun c => [c] ++ Statement.all_sub_statements c)
                      subs)))).
  { intros m ->. apply bind_ext. intros subs.
    rewrite flatten_flat_map. reflexivity. }
  destruct (str_in data ["func_def"; "static_func_def"]).
  { intros [= <-]. apply Hfinal. rewrite slice_from_skipn. reflexivity. }
  destruct (data =? "if_stmt").
  { intros H. apply Hfinal. rewrite if_branch_loop.
    apply branch_loop_eq, H. }
  destruct (data =? "while_stmt").
  { intros [= <-]. apply Hfinal. rewrite slice_from_skipn. reflexivity. }
  destruct (data =? "for_stmt").
  { intros [= <-]. apply Hfinal. rewrite slice_from_skipn. reflexivity. }
  destruct (data =? "match_stmt").
  { intros H. apply Hfinal. rewrite match_branch_loop.
    apply branch_loop_eq, H. }
  intros [= <-]. apply Hfinal. reflexivity.
Qed.

Lemma mapM_first_error {A B : Type} (f : A -> result B) (pre post : list A)
  (bad : A) (built : list B) (e : error) :
  mapM f pre = Ok built -> f bad = Err e ->
  mapM f (pre ++ bad :: post) = Err e.
Proof.
  intros Hpre Hbad. rewrite mapM_app, Hpre, mapM_cons, Hbad. reflexivity.
Qed.

(** C2. A conditional statement gets its sub-statements branch by branch,
    in order: from an [if_branch] or [elif_branch], one statement per
    child after the condition at index 0; from any other branch, one
    statement per child. *)
Theorem if_stmt_sub_statements (branches : list Node) (s : Statement.t) :
  Statement.init (Tree "if_stmt" branches) = Ok s ->
  exists parts : list (list Statement.t),
    Forall2
      (fun branch part =>
         exists bdata bchildren,
           branch = Tree bdata bchildren /\
           mapM Statement.init
             (if str_in bdata ["if_branch"; "elif_branch"]
              then skipn 1 bchildren else bchildren) = Ok part)
      branches parts
    /\ Statement.sub_statements s = concat parts.
Proof.
  intros H. rewrite init_Tree in H.
  unfold Statement._load_sub_statements in H.
  cbn [Statement.kind Statement.lark_node Statement.sub_statements
       Statement.all_sub_statements children_of] in H.
  change ("if_stmt" =? "class_def") with false in H.
  change ("if_stmt" =? "property_body_def") with false in H.
  change (str_in "if_stmt" ["func_def"; "static_func_def"]) with false in H.
  change ("if_stmt" =? "if_stmt") with true in H.
  cbv iota in H.
  apply bind_Ok in H as (subs & Hsubs & [= <-]).
  cbn [Statement.sub_statements].
  rewrite if_branch_loop, foldM_append in Hsubs.
  apply bind_Ok in Hsubs as (parts & Hparts & [= <-]).
  exists parts. split; [|reflexivity].
  apply mapM_Ok_Forall2 in Hparts.
  eapply Forall2_impl; [|exact Hparts].
  intros [bdata bchildren | ty v] part Hb; [|discriminate].
  exists bdata, bchildren. split; [reflexivity|].
  unfold spec_if_branch_nodes in Hb.
  destruct (str_in bdata _); exact Hb.
Qed.

Lemma if_stmt_sub_statements_witness :
  Statement.init sample_if_stmt = Ok sample_if_statement
  /\ exists parts : list (list Statement.t),
       Forall2
         (fun branch part =>
            exists bdata bchildren,
              branch = Tree bdata bchildren /\
              mapM Statement.init
                (if str_in bdata ["if_branch"; "elif_branch"]
                 then skipn 1 bchildren else bchildren) = Ok part)
         [Tree "if_branch" [Token "NAME" "cond"; sample_pass];
          Tree "elif_branch" [Token "NAME" "cond2"; Tree "return_stmt" []];
          Tree "else_branch" [Tree "break_stmt" []]]
         parts
       /\ Statement.sub_statements sample_if_statement = concat parts.
Proof.
  split; [reflexivity|].
  apply (if_stmt_sub_statements _ sample_if_statement). reflexivity.
Defined.

(** The example of the specification: the branches
    [if-branch(cond, s1), elif-branch(cond2, s2), else-branch(s3)] give the
    statements of [s1], [s2], [s3]. *)
Lemma if_stmt_three_branches (cond s1 cond2 s2 s3 : Node)
  (t1 t2 t3 : Statement.t) (else_kind : string) :
  str_in else_kind ["if_branch"; "elif_branch"] = false ->
  Statement.init s1 = Ok t1 ->
  Statement.init s2 = Ok t2 ->
  Statement.init s3 = Ok t3 ->
  exists s,
    Statement.init
      (Tree "if_stmt"
         [Tree "if_branch" [cond; s1]; Tree "elif_branch" [cond2; s2];
          Tree else_kind [s3]]) = Ok s
    /\ Statement.sub_statements s = [t1; t2; t3].
Proof.
  intros Helse H1 H2 H3. eexists.
  rewrite (Statement_init_nodes _ _ [s1; s2; s3]).
  - rewrite !mapM_cons, H1, H2, H3. cbn [mapM bind].
    split; reflexivity.
  - reflexivity.
  - unfold spec_sub_statement_nodes.
    change (str_in "if_stmt" ["func_def"; "static_func_def"]) with false.
    change ("if_stmt" =? "if_stmt") with true. cbv iota.
    rewrite !mapM_cons. unfold spec_if_branch_nodes at 1 2 3.
    rewrite Helse. reflexivity.
Qed.

(** C9. A node whose kind has no rule and is not refused builds a leaf
    statement: no sub-statements, no flattened sub-statements, no
    error. *)
Theorem other_kind_is_leaf (kind : string) (children : list Node) :
  recognized_kind kind = false ->
  disallowed_kind kind = false ->
  exists s,
    Statement.init (Tree kind children) = Ok s
    /\ Statement.sub_statements s = []
    /\ Statement.all_sub_statements s = []
    /\ Statement.kind s = kind
    /\ Statement.lark_node s = Tree kind children.
Proof.
  intros Hrec Hdis.
  assert (Hnodes : spec_sub_statement_nodes (Tree kind children) = Ok []).
  { unfold recognized_kind, str_in in Hrec. cbn [existsb] in Hrec.
    repeat (apply orb_false_iff in Hrec as [? Hrec]).
    unfold spec_sub_statement_nodes, str_in. cbn [existsb].
    repeat match goal with H : (kind =? _) = false |- _ => rewrite H; clear H end.
    reflexivity. }
  rewrite (Statement_init_nodes _ _ _ Hdis Hnodes).
  eexists. split; [reflexivity|]. repeat split.
Qed.

Lemma other_kind_is_leaf_witness :
  exists s,
    Statement.init (Tree "return_stmt" [Token "NUMBER" "1"]) = Ok s
    /\ Statement.sub_statements s = []
    /\ Statement.all_sub_statements s = []
    /\ Statement.kind s = "return_stmt"
    /\ Statement.lark_node s = Tree "return_stmt" [Token "NUMBER" "1"].
Proof.
  apply (other_kind_is_leaf "return_stmt" [Token "NUMBER" "1"]);
    reflexivity.
Defined.

(** C7. [Statement] on a [class_def] or [property_body_def] node raises
    [NotImplementedError] whatever the node's children are, so before any
    sub-statement is built.  Nothing catches it: [Function] on such a node
    raises it too, and so does [Statement] on any node whose rule reaches
    such a node after nodes that build. *)
Theorem disallowed_kind_fails_fast (kind : string) (children : list Node) :
  disallowed_kind kind = true ->
  Statement.init (Tree kind children) = Err NotImplementedError
  /\ (forall U : Utils,
        Function.init (Tree kind children) = Err NotImplementedError)
  /\ (forall pkind pchildren pre post built,
        disallowed_kind pkind = false ->
        spec_sub_statement_nodes (Tree pkind pchildren)
          = Ok (pre ++ Tree kind children :: post) ->
        mapM Statement.init pre = Ok built ->
        Statement.init (Tree pkind pchildren) = Err NotImplementedError).
Proof.
  intros Hdis.
  assert (Hfail : Statement.init (Tree kind children) = Err NotImplementedError).
  { rewrite init_Tree. unfold Statement._load_sub_statements.
    cbn [Statement.kind].
    unfold disallowed_kind, str_in in Hdis. cbn [existsb] in Hdis.
    destruct (kind =? "class_def"); [reflexivity|].
    destruct (kind =? "property_body_def"); [reflexivity|].
    discriminate. }
  split; [exact Hfail|]. split.
  - intros U. unfold Function.init. rewrite Hfail. reflexivity.
  - intros pkind pchildren pre post built Hp Hnodes Hpre.
    rewrite (Statement_init_nodes _ _ _ Hp Hnodes).
    rewrite (mapM_first_error _ _ _ _ _ _ Hpre Hfail). reflexivity.
Qed.

Lemma disallowed_kind_fails_fast_witness :
  Statement.init (Tree "class_def" [Token "NAME" "Foo"; sample_bar])
    = Err NotImplementedError
  /\ (forall U : Utils,
        Function.init (Tree "class_def" [Token "NAME" "Foo"; sample_bar])
          = Err NotImplementedError)
  /\ (forall pkind pchildren pre post built,
        disallowed_kind pkind = false ->
        spec_sub_statement_nodes (Tree pkind pchildren)
          = Ok (pre ++ Tree "class_def" [Token "NAME" "Foo"; sample_bar]
                  :: post) ->
        mapM Statement.init pre = Ok built ->
        Statement.init (Tree pkind pchildren) = Err NotImplementedError).
Proof.
  apply (disallowed_kind_fails_fast "class_def"
           [Token "NAME" "Foo"; sample_bar]).
  reflexivity.
Defined.

(** A class definition among the statements of a function body, and a
    property body under the [else] of a conditional in a loop. *)
Example nested_class_def_raises :
  Statement.init
    (Tree "func_def"
       [Tree "func_header" []; sample_pass; sample_class_def; Token "X" "x"])
  = Err NotImplementedError.
Proof. reflexivity. Qed.

Example nested_property_body_def_raises :
  Statement.init
    (Tree "while_stmt"
       [Token "NAME" "cond";
        Tree "if_stmt"
          [Tree "if_branch" [Token "NAME" "c"; sample_pass];
           Tree "else_branch" [Tree "property_body_def" []]]])
  = Err NotImplementedError.
Proof. reflexivity. Qed.

(** ** Function *)

Lemma attr_value_Ok (x : option Node) (v : string) :
  attr_value x = Ok v <-> exists type, x = Some (Token type v).
Proof.
  destruct x as [[d ch | ty v']|]; simpl; split;
    try discriminate; try (intros [? [=]]; fail).
  - intros [= ->]. eauto.
  - intros [ty' [= _ ->]]. reflexivity.
Qed.

Lemma attr_children_Ok (x : option Node) (children : list Node) :
  attr_children x = Ok children <-> exists data, x = Some (Tree data children).
Proof.
  destruct x as [[d ch | ty v']|]; simpl; split;
    try discriminate; try (intros [? [=]]; fail).
  - intros [= ->]. eauto.
  - intros [d' [= _ ->]]. reflexivity.
Qed.

Lemma Parameter_init_Ok (c : Node) (p : Parameter_.t) :
  Parameter_.init c = Ok p <-> parameter_of c p.
Proof.
  unfold Parameter_.init, parameter_of. split.
  - intros H. apply bind_Ok in H as (children & Hc & H).
    apply attr_children_Ok in Hc as (data & [= ->]).
    destruct children as [|first rest]; [discriminate|].
    apply bind_Ok in H as (value & Hv & [= <-]).
    apply attr_value_Ok in Hv as (type & [= ->]).
    exists data, type, value, rest. auto.
  - intros (data & type & value & rest & -> & <-).
    destruct p; reflexivity.
Qed.

Lemma load_parameters_cons (c : Node) (rest : list Node) :
  Function.load_parameters (c :: rest) =
  (data <- attr_data c ;;
   if negb (data =? "trailing_comma") then
     p <- Parameter_.init c ;;
     ps <- Function.load_parameters rest ;;
     Ok (p :: ps)
   else Function.load_parameters rest).
Proof. reflexivity. Qed.

(** The filtered comprehension, on success: every child is a tree, and
    the parameters are those of the children that pass the filter. *)
Lemma load_parameters_Ok (args : list Node) (ps : list Parameter_.t) :
  Function.load_parameters args = Ok ps <->
  Forall (fun c => isinstance_Tree c = true) args /\
  mapM Parameter_.init (filter (fun c => negb (is_trailing_comma c)) args)
    = Ok ps.
Proof.
  revert ps. induction args as [|c args IH]; intros ps.
  - simpl. split; [intros H; split; [constructor | exact H] | tauto].
  - rewrite load_parameters_cons.
    destruct c as [data children | ty v]; cbn [attr_data bind filter
      is_trailing_comma].
    2:{ split; [discriminate | intros [H _]; inversion H; discriminate]. }
    destruct (negb (data =? "trailing_comma")).
    + rewrite mapM_cons. split.
      * intros H. apply bind_Ok in H as (p & Hp & H).
        apply bind_Ok in H as (ps' & Hps & [= <-]).
        apply IH in Hps as [Hall Hps]. split; [constructor; auto|].
        rewrite Hp, Hps. reflexivity.
      * intros [Hall H]. apply bind_Ok in H as (p & Hp & H).
        apply bind_Ok in H as (ps' & Hps & [= <-]).
        rewrite Hp. cbn [bind].
        assert (Hl : Function.load_parameters args = Ok ps').
        { apply IH. split; [inversion Hall; assumption | exact Hps]. }
        rewrite Hl. reflexivity.
    + rewrite IH. split; intros [Hall H]; (split; [|exact H]).
      * constructor; auto.
      * inversion Hall; assumption.
Qed.

(** What a successful [Function(func_def)] is. *)
Lemma Function_init_Ok {U : Utils} (func_def : Node) (f : Function.t) :
  Function.init func_def = Ok f <->
  exists super data func_header rest name args parameters,
    Statement.init func_def = Ok super /\
    func_def = Tree data (func_header :: rest) /\
    attr_value (find_name_token_among_children func_header) = Ok name /\
    attr_children (find_tree_among_children "func_args" func_header)
      = Ok args /\
    Function.load_parameters args = Ok parameters /\
    f = Function.Build super name parameters
          ([super] ++ Statement.all_sub_statements super).
Proof.
  unfold Function.init, Function._load_data_from_func_def. split.
  - intros H. apply bind_Ok in H as (super & Hsuper & H).
    apply bind_Ok in H as (children & Hc & H).
    apply attr_children_Ok in Hc as (data & [= ->]).
    destruct children as [|func_header rest]; [discriminate|].
    apply bind_Ok in H as (name & Hname & H).
    apply bind_Ok in H as (args & Hargs & H).
    apply bind_Ok in H as (parameters & Hps & [= <-]).
    exists super, data, func_header, rest, name, args, parameters.
    cbn [Function.super Function.all_statements]. auto 7.
  - intros (super & data & func_header & rest & name & args & parameters
            & Hsuper & -> & Hname & Hargs & Hps & ->).
    rewrite Hsuper. cbn [bind attr_children].
    rewrite Hname. cbn [bind]. rewrite Hargs. cbn [bind].
    rewrite Hps. reflexivity.
Qed.

(** C4. A function built from a node lists, in [all_statements], itself
    (as the statement built from that node) and then its
    [all_sub_statements]: the depth-first pre-order listing of the
    function's statement tree. *)
Theorem function_all_statements {U : Utils} (func_def : Node)
  (f : Function.t) :
  Function.init func_def = Ok f ->
  Statement.init func_def = Ok (Function.super f)
  /\ Function.all_statements f =
       [Function.super f] ++ Statement.all_sub_statements (Function.super f)
  /\ Function.all_statements f = preorder (Function.super f).
Proof.
  intros H.
  apply Function_init_Ok in H
    as (super & data & hdr & rest & name & args & ps
        & Hsuper & _ & _ & _ & _ & ->).
  cbn [Function.super Function.all_statements].
  split; [exact Hsuper|]. split; [reflexivity|].
  rewrite preorder_eq.
  rewrite <- (built_all_sub_statements _ _ Hsuper). reflexivity.
Qed.

Lemma function_all_statements_witness :
  @Function.init spec_utils sample_baz = Ok sample_baz_function
  /\ Statement.init sample_baz = Ok (Function.super sample_baz_function)
  /\ Function.all_statements sample_baz_function =
       [Function.super sample_baz_function]
         ++ Statement.all_sub_statements (Function.super sample_baz_function)
  /\ Function.all_statements sample_baz_function
     = preorder (Function.super sample_baz_function).
Proof.
  split; [reflexivity|].
  apply (@function_all_statements spec_utils sample_baz sample_baz_function).
  reflexivity.
Defined.

(** The function [baz] of the sample file, whose body is one conditional
    of three branches with one statement each, lists five statements:
    itself, the conditional and the three statements of the branches. *)
Example sample_baz_all_statements :
  map Statement.kind (Function.all_statements sample_baz_function)
  = ["func_def"; "if_stmt"; "pass_stmt"; "return_stmt"; "break_stmt"].
Proof. reflexivity. Qed.

(** C5. The parameters of a function are read off the children of the
    parameter list the helper finds in the function header: the children
    that are not [trailing_comma] markers, wherever the markers stand,
    give one parameter each, in order, named by the value of the child's
    first child, a token. *)
Theorem function_parameters {U : Utils} (data : string)
  (func_header : Node) (body : list Node) (f : Function.t) :
  Function.init (Tree data (func_header :: body)) = Ok f ->
  exists args_data args,
    find_tree_among_children "func_args" func_header
      = Some (Tree args_data args)
    /\ Forall2 parameter_of
         (filter (fun c => negb (is_trailing_comma c)) args)
         (Function.parameters f).
Proof.
  intros H.
  apply Function_init_Ok in H
    as (super & data' & hdr & rest & name & args & ps
        & _ & [= <- <- <-] & _ & Hargs & Hps & ->).
  apply attr_children_Ok in Hargs as (args_data & Hargs).
  exists args_data, args. split; [exact Hargs|].
  cbn [Function.parameters].
  apply load_parameters_Ok in Hps as [_ Hps].
  apply mapM_Ok_Forall2 in Hps.
  eapply Forall2_impl; [|exact Hps].
  intros c p. apply Parameter_init_Ok.
Qed.

Lemma function_parameters_witness :
  @Function.init spec_utils sample_bar = Ok sample_bar_function
  /\ exists args_data args,
       spec_find_tree_among_children "func_args"
         (Tree "func_header" [Token "NAME" "bar"; sample_func_args])
         = Some (Tree args_data args)
       /\ Forall2 parameter_of
            (filter (fun c => negb (is_trailing_comma c)) args)
            (Function.parameters sample_bar_function).
Proof.
  split; [reflexivity|].
  apply (@function_parameters spec_utils "func_def"
           (Tree "func_header" [Token "NAME" "bar"; sample_func_args])
           [sample_pass] sample_bar_function).
  reflexivity.
Defined.

(** A marker that is not last is dropped all the same. *)
Example leading_marker_dropped :
  Function.load_parameters
    [Tree "trailing_comma" []; Tree "func_arg_regular" [Token "NAME" "a"];
     Tree "trailing_comma" []; Tree "func_arg_typed" [Token "NAME" "b"; Token "NAME" "int"]]
  = Ok [Parameter_.Build "a"; Parameter_.Build "b"].
Proof. reflexivity. Qed.

(** ** Class *)

Section ClassFacts.
Context {U : Utils}.

Lemma Class_init_Tree (data : string) (children : list Node) :
  Class_.init (Tree data children) =
  let self := Class_.Build (Tree data children) None [] [] [] [] in
  if data =? "start" then
    Class_._load_data_from_node_children Class_.init self
      (Tree data children)
  else if data =? "class_def" then
    Class_._load_data_from_class_def Class_.init self (Tree data children)
  else Err (Exception "Cannot load class from that node").
Proof. reflexivity. Qed.

(** One turn of the loop, by the kind of the child. *)
Lemma load_child_class_def (self : Class_.t) (stmt : Node) :
  is_kind "class_def" stmt = true ->
  Class_.load_child Class_.init self stmt =
  (sub_class <- Class_.init stmt ;;
   Ok (Class_.Build (Class_.lark_node self) (Class_.name self)
         (Class_.sub_classes self ++ [sub_class])
         (Class_.all_sub_classes self
            ++ ([sub_class] ++ Class_.all_sub_classes sub_class))
         (Class_.functions self)
         (Class_.all_functions self ++ Class_.all_functions sub_class))).
Proof.
  destruct stmt as [data children | ty v]; [|discriminate].
  cbn [is_kind]. intros H. apply String.eqb_eq in H. subst data.
  unfold Class_.load_child.
  change ("class_def" =? "class_def") with true.
  change ("class_def" =? "func_def") with false. cbv iota.
  destruct (Class_.init (Tree "class_def" children)); reflexivity.
Qed.

Lemma load_child_func_def (self : Class_.t) (stmt : Node) :
  is_kind "func_def" stmt = true ->
  Class_.load_child Class_.init self stmt =
  (function <- Function.init stmt ;;
   Ok (Class_.Build (Class_.lark_node self) (Class_.name self)
         (Class_.sub_classes self) (Class_.all_sub_classes self)
         (Class_.functions self ++ [function])
         (Class_.all_functions self ++ [function]))).
Proof.
  destruct stmt as [data children | ty v]; [|discriminate].
  cbn [is_kind]. intros H. apply String.eqb_eq in H. subst data.
  reflexivity.
Qed.

Lemma load_child_other (self : Class_.t) (stmt : Node) :
  is_kind "class_def" stmt = false ->
  is_kind "func_def" stmt = false ->
  Class_.load_child Class_.init self stmt = Ok self.
Proof.
  destruct stmt as [data children | ty v]; [|reflexivity].
  cbn [is_kind]. intros Hc Hf. unfold Class_.load_child.
  rewrite Hc, Hf. reflexivity.
Qed.

Lemma is_kind_class_def_func_def (stmt : Node) :
  is_kind "class_def" stmt = true -> is_kind "func_def" stmt = false.
Proof.
  destruct stmt as [data children | ty v]; [|reflexivity].
  cbn [is_kind]. intros H. apply String.eqb_eq in H. subst. reflexivity.
Qed.

(** The loop over the children, when it completes: the sub-classes are
    the classes built from the [class_def] children, the functions those
    built from the [func_def] children, and [all_functions] grows by
    what each child contributes, child after child. *)
Lemma load_children_Ok (children : list Node) (self c : Class_.t) :
  foldM (Class_.load_child Class_.init) children self = Ok c ->
  exists subs fs parts,
    mapM Class_.init (filter (is_kind "class_def") children) = Ok subs /\
    mapM Function.init (filter (is_kind "func_def") children) = Ok fs /\
    Forall2 contributes children parts /\
    c = Class_.Build (Class_.lark_node self) (Class_.name self)
          (Class_.sub_classes self ++ subs)
          (Class_.all_sub_classes self
             ++ flat_map (fun sc => [sc] ++ Class_.all_sub_classes sc) subs)
          (Class_.functions self ++ fs)
          (Class_.all_functions self ++ concat parts).
Proof.
  revert self. induction children as [|stmt children IH]; intros self H.
  - injection H as <-. exists [], [], []. cbn [filter mapM concat flat_map].
    rewrite !app_nil_r. destruct self. repeat split. constructor.
  - rewrite foldM_cons in H. apply bind_Ok in H as (self1 & H1 & H).
    apply IH in H as (subs & fs & parts & Hsubs & Hfs & Hparts & ->).
    cbn [filter].
    destruct (is_kind "class_def" stmt) eqn:Hc.
    + rewrite (is_kind_class_def_func_def _ Hc).
      rewrite (load_child_class_def _ _ Hc) in H1.
      apply bind_Ok in H1 as (sub_class & Hsub & [= <-]).
      exists (sub_class :: subs), fs,
        (Class_.all_functions sub_class :: parts).
      rewrite mapM_cons, Hsub, Hsubs.
      cbn [Class_.lark_node Class_.name Class_.sub_classes
           Class_.all_sub_classes Class_.functions Class_.all_functions
           bind concat flat_map].
      split; [reflexivity|]. split; [exact Hfs|]. split.
      * constructor; [|exact Hparts].
        unfold contributes. rewrite Hc. eauto.
      * rewrite <- !app_assoc. reflexivity.
    + destruct (is_kind "func_def" stmt) eqn:Hf.
      * rewrite (load_child_func_def _ _ Hf) in H1.
        apply bind_Ok in H1 as (function & Hfun & [= <-]).
        exists subs, (function :: fs), ([function] :: parts).
        rewrite mapM_cons, Hfun, Hfs.
        cbn [Class_.lark_node Class_.name Class_.sub_classes
             Class_.all_sub_classes Class_.functions Class_.all_functions
             bind concat].
        split; [exact Hsubs|]. split; [reflexivity|]. split.
        -- constructor; [|exact Hparts].
           unfold contributes. rewrite Hc, Hf. eauto.
        -- rewrite <- !app_assoc. reflexivity.
      * rewrite (load_child_other _ _ Hc Hf) in H1.
        injection H1 as <-.
        exists subs, fs, ([] :: parts).
        split; [exact Hsubs|]. split; [exact Hfs|]. split.
        -- constructor; [|exact Hparts].
           unfold contributes. rewrite Hc, Hf. reflexivity.
        -- reflexivity.
Qed.

(** What a successful [Class(parse_tree)] is. *)
Lemma Class_init_Ok (parse_tree : Node) (c : Class_.t) :
  Class_.init parse_tree = Ok c ->
  exists data children subs fs parts,
    parse_tree = Tree data children /\
    (data = "start" /\ Class_.name c = None
     \/ data = "class_def" /\
        exists type value,
          find_name_token_among_children parse_tree
            = Some (Token type value)
          /\ Class_.name c = Some value) /\
    mapM Class_.init (filter (is_kind "class_def") children) = Ok subs /\
    mapM Function.init (filter (is_kind "func_def") children) = Ok fs /\
    Forall2 contributes children parts /\
    c = Class_.Build parse_tree (Class_.name c) subs
          (flat_map (fun sc => [sc] ++ Class_.all_sub_classes sc) subs)
          fs (concat parts).
Proof.
  destruct parse_tree as [data children | ty v]; [|discriminate].
  rewrite Class_init_Tree. cbv zeta.
  destruct (data =? "start") eqn:Hs.
  - apply String.eqb_eq in Hs. subst data.
    unfold Class_._load_data_from_node_children. intros H.
    apply load_children_Ok in H
      as (subs & fs & parts & Hsubs & Hfs & Hparts & ->).
    exists "start", children, subs, fs, parts.
    cbn [Class_.lark_node Class_.name Class_.sub_classes
         Class_.all_sub_classes Class_.functions Class_.all_functions app].
    repeat split; auto.
  - destruct (data =? "class_def") eqn:Hc; [|discriminate].
    apply String.eqb_eq in Hc. subst data.
    unfold Class_._load_data_from_class_def,
      Class_._load_data_from_node_children. intros H.
    apply bind_Ok in H as (value & Hv & H).
    apply attr_value_Ok in Hv as (type & Hv).
    apply load_children_Ok in H
      as (subs & fs & parts & Hsubs & Hfs & Hparts & ->).
    exists "class_def", children, subs, fs, parts.
    cbn [Class_.lark_node Class_.name Class_.sub_classes
         Class_.all_sub_classes Class_.functions Class_.all_functions app].
    repeat split; auto. right. split; [reflexivity|]. eauto.
Qed.

End ClassFacts.

(** C3. The [all_functions] of a class is the concatenation, over the
    class's direct children in order, of what each contributes: a
    [func_def] child the function itself, a [class_def] child the whole
    [all_functions] of the sub-class.  So of two children, what the
    earlier one contributes comes before what the later one does, whether
    the function or the nested class comes first. *)
Theorem class_all_functions_order {U : Utils} (data : string)
  (children : list Node) (c : Class_.t) :
  Class_.init (Tree data children) = Ok c ->
  (exists parts,
      Forall2 contributes children parts
      /\ Class_.all_functions c = concat parts)
  /\ (forall pre a mid b post,
        children = pre ++ a :: mid ++ b :: post ->
        exists before fa between fb after,
          contributes a fa /\ contributes b fb
          /\ Class_.all_functions c
             = before ++ fa ++ between ++ fb ++ after).
Proof.
  intros H.
  apply Class_init_Ok in H
    as (data' & children' & subs & fs & parts
        & [= <- <-] & _ & _ & _ & Hparts & ->).
  cbn [Class_.all_functions].
  split; [eauto|].
  intros pre a mid b post ->.
  apply Forall2_app_inv_l in Hparts as (before & rest & _ & Hrest & ->).
  inversion Hrest as [|? fa ? rest' Ha Hrest']; subst.
  apply Forall2_app_inv_l in Hrest' as (between & rest'' & _ & Hrest'' & ->).
  inversion Hrest'' as [|? fb ? after _b Hb]; subst.
  exists (concat before), fa, (concat between), fb, (concat after).
  split; [exact Ha|]. split; [assumption|].
  rewrite concat_app. cbn [concat]. rewrite concat_app. reflexivity.
Qed.

Lemma class_all_functions_order_witness :
  @Class_.init spec_utils sample_file = Ok sample_root_class
  /\ (exists parts,
         Forall2 (@contributes spec_utils)
           [sample_class_def; Token "_NL" ""; sample_baz] parts
         /\ Class_.all_functions sample_root_class = concat parts)
  /\ (forall pre a mid b post,
         [sample_class_def; Token "_NL" ""; sample_baz]
           = pre ++ a :: mid ++ b :: post ->
         exists before fa between fb after,
           @contributes spec_utils a fa /\ @contributes spec_utils b fb
           /\ Class_.all_functions sample_root_class
              = before ++ fa ++ between ++ fb ++ after).
Proof.
  split; [reflexivity|].
  apply (@class_all_functions_order spec_utils "start"
           [sample_class_def; Token "_NL" ""; sample_baz] sample_root_class).
  reflexivity.
Defined.

(** A function before a nested class, and one after it. *)
Example functions_around_nested_class :
  let func name :=
    Tree "func_def"
      [Tree "func_header" [Token "NAME" name; Tree "func_args" []];
       sample_pass] in
  match
    @Class_.init spec_utils
      (Tree "start"
         [func "first";
          Tree "class_def"
            [Token "NAME" "Inner"; func "inner_a";
             Tree "class_def" [Token "NAME" "Deep"; func "deep"];
             func "inner_b"];
          func "last"])
  with
  | Ok c => map Function.name (Class_.all_functions c)
  | Err _ => []
  end = ["first"; "inner_a"; "deep"; "inner_b"; "last"].
Proof. reflexivity. Qed.

(** C6. A [static_func_def] child of a class is passed over: the turn of
    the loop leaves the class as it was, whatever is under the child, so
    the loop goes as if the child were not there; the functions of a class
    are those built from its [func_def] children alone.  [Statement] does
    apply the function rule to a [static_func_def] node. *)
Theorem static_func_def_skipped {U : Utils} (self : Class_.t)
  (data : string) (static_children pre post : list Node) :
  Class_.load_child Class_.init self (Tree "static_func_def" static_children)
    = Ok self
  /\ Class_._load_data_from_node_children Class_.init self
       (Tree data (pre ++ Tree "static_func_def" static_children :: post))
     = Class_._load_data_from_node_children Class_.init self
         (Tree data (pre ++ post))
  /\ (forall children c,
        Class_.init (Tree data children) = Ok c ->
        mapM Function.init (filter (is_kind "func_def") children)
          = Ok (Class_.functions c))
  /\ (forall s,
        Statement.init (Tree "static_func_def" static_children) = Ok s ->
        mapM Statement.init (skipn 1 static_children)
          = Ok (Statement.sub_statements s)).
Proof.
  assert (Hskip : forall self',
             Class_.load_child Class_.init self'
               (Tree "static_func_def" static_children) = Ok self').
  { intros self'. apply load_child_other; reflexivity. }
  split; [apply Hskip|]. split; [|split].
  - unfold Class_._load_data_from_node_children.
    rewrite !foldM_app. apply bind_ext. intros self'.
    rewrite foldM_cons, Hskip. reflexivity.
  - intros children c H.
    apply Class_init_Ok in H
      as (data' & children' & subs & fs & parts
          & [= <- <-] & _ & _ & Hfs & _ & ->).
    exact Hfs.
  - intros s H.
    apply Statement_init_Ok in H as (_ & nodes & subs & Hnodes & Hsubs & ->).
    injection Hnodes as <-. exact Hsubs.
Qed.

Lemma static_func_def_skipped_witness :
  let self := Class_.Build sample_file None [] [] [] [] in
  let static := Tree "static_func_def" [Token "X" "x"] in
  @Class_.load_child spec_utils Class_.init self static = Ok self
  /\ @Class_._load_data_from_node_children spec_utils Class_.init self
       (Tree "start" ([sample_bar] ++ static :: [sample_baz]))
     = @Class_._load_data_from_node_children spec_utils Class_.init self
         (Tree "start" ([sample_bar] ++ [sample_baz])).
Proof.
  cbv zeta.
  destruct (@static_func_def_skipped spec_utils
              (Class_.Build sample_file None [] [] [] []) "start"
              [Token "X" "x"] [sample_bar] [sample_baz])
    as (H1 & H2 & _).
  split; [exact H1 | exact H2].
Defined.

(** A static function between two functions of the sample file's kind. *)
Example static_function_not_listed :
  let func kind name :=
    Tree kind
      [Tree "func_header" [Token "NAME" name; Tree "func_args" []];
       sample_pass] in
  match
    @Class_.init spec_utils
      (Tree "start"
         [func "func_def" "f"; func "static_func_def" "g";
          func "func_def" "h"])
  with
  | Ok c => (map Function.name (Class_.functions c),
             map Function.name (Class_.all_functions c))
  | Err _ => ([], [])
  end = (["f"; "h"], ["f"; "h"]).
Proof. reflexivity. Qed.

(** C8. [Class] on a tree whose kind is neither [start] nor [class_def]
    raises the exception "Cannot load class from that node"; a class is
    only ever built from a tree of one of these two kinds. *)
Theorem class_invalid_root {U : Utils} (data : string)
  (children : list Node) :
  (data =? "start") = false ->
  (data =? "class_def") = false ->
  Class_.init (Tree data children)
    = Err (Exception "Cannot load class from that node")
  /\ (forall node c,
        Class_.init node = Ok c ->
        exists node_children,
          node = Tree "start" node_children
          \/ node = Tree "class_def" node_children).
Proof.
  intros Hs Hc. split.
  - rewrite Class_init_Tree. cbv zeta. rewrite Hs, Hc. reflexivity.
  - intros node c H.
    apply Class_init_Ok in H
      as (data' & children' & subs & fs & parts
          & -> & [[-> _] | [-> _]] & _).
    + exists children'. left. reflexivity.
    + exists children'. right. reflexivity.
Qed.

Lemma class_invalid_root_witness :
  @Class_.init spec_utils sample_baz
    = Err (Exception "Cannot load class from that node")
  /\ (forall node c,
        @Class_.init spec_utils node = Ok c ->
        exists node_children,
          node = Tree "start" node_children
          \/ node = Tree "class_def" node_children).
Proof.
  apply (@class_invalid_root spec_utils "func_def"); reflexivity.
Defined.

(** C10. On the parse tree of a file, whose root is a [start] tree,
    [AbstractSyntaxTree] builds [root_class] by [Class] on that tree, which
    takes the root branch: the loop over the children on a class without a
    name.  Then [all_classes] is the root class followed by its
    [all_sub_classes], [all_functions] is the root class's, and the root
    class has no name; a class built from a [class_def] tree is named by
    the value of the token the name helper finds in that tree. *)
Theorem ast_of_file {U : Utils} (children : list Node)
  (ast : AbstractSyntaxTree.t) :
  AbstractSyntaxTree.init (Tree "start" children) = Ok ast ->
  Class_.init (Tree "start" children)
    = Ok (AbstractSyntaxTree.root_class ast)
  /\ Class_.init (Tree "start" children)
     = Class_._load_data_from_node_children Class_.init
         (Class_.Build (Tree "start" children) None [] [] [] [])
         (Tree "start" children)
  /\ AbstractSyntaxTree.all_classes ast
     = [AbstractSyntaxTree.root_class ast]
         ++ Class_.all_sub_classes (AbstractSyntaxTree.root_class ast)
  /\ AbstractSyntaxTree.all_functions ast
     = Class_.all_functions (AbstractSyntaxTree.root_class ast)
  /\ Class_.name (AbstractSyntaxTree.root_class ast) = None
  /\ (forall class_children c,
        Class_.init (Tree "class_def" class_children) = Ok c ->
        exists type value,
          find_name_token_among_children (Tree "class_def" class_children)
            = Some (Token type value)
          /\ Class_.name c = Some value).
Proof.
  intros H. unfold AbstractSyntaxTree.init in H.
  apply bind_Ok in H as (root_class & Hroot & [= <-]).
  cbn [AbstractSyntaxTree.root_class AbstractSyntaxTree.all_classes
       AbstractSyntaxTree.all_functions].
  split; [exact Hroot|]. split; [reflexivity|].
  split; [reflexivity|]. split; [reflexivity|]. split.
  - apply Class_init_Ok in Hroot
      as (data' & children' & subs & fs & parts
          & [= <- <-] & [[_ Hname] | [[=] _]] & _).
    exact Hname.
  - intros class_children c Hc.
    apply Class_init_Ok in Hc
      as (data' & children' & subs & fs & parts
          & [= <- <-] & [[[=] _] | [_ Hname]] & _).
    exact Hname.
Qed.

Lemma ast_of_file_witness :
  @AbstractSyntaxTree.init spec_utils sample_file = Ok sample_ast
  /\ @Class_.init spec_utils sample_file
     = Ok (AbstractSyntaxTree.root_class sample_ast)
  /\ AbstractSyntaxTree.all_classes sample_ast
     = [AbstractSyntaxTree.root_class sample_ast]
         ++ Class_.all_sub_classes (AbstractSyntaxTree.root_class sample_ast)
  /\ AbstractSyntaxTree.all_functions sample_ast
     = Class_.all_functions (AbstractSyntaxTree.root_class sample_ast)
  /\ Class_.name (AbstractSyntaxTree.root_class sample_ast) = None.
Proof.
  split; [reflexivity|].
  destruct (@ast_of_file spec_utils
              [sample_class_def; Token "_NL" ""; sample_baz] sample_ast
              eq_refl)
    as (H1 & _ & H3 & H4 & H5 & _).
  repeat split; assumption.
Defined.

(** The root mode is chosen by the kind of the tree alone: handed a
    [class_def] tree, [AbstractSyntaxTree] names its root class. *)
Example ast_of_class_def_tree :
  match @AbstractSyntaxTree.init spec_utils sample_class_def with
  | Ok ast => map Class_.name (AbstractSyntaxTree.all_classes ast)
  | Err _ => []
  end = [Some "Foo"].
Proof. reflexivity. Qed.

(** * Further properties *)

(** ** Statement: failures *)







(** ** Statement: what is built, node by node *)

(** Induction over successful constructions that keeps, for every direct
    sub-statement, the node it was built from. *)
Lemma Statement_built_ind (P : Node -> Statement.t -> Prop) :
  (forall data children nodes subs,
      disallowed_kind data = false ->
      spec_sub_statement_nodes (Tree data children) = Ok nodes ->
      Forall2 (fun c sub => Statement.init c = Ok sub /\ P c sub) nodes subs ->
      P (Tree data children)
        (Statement.Build (Tree data children) data subs
           (flat_map (fun c => [c] ++ Statement.all_sub_statements c) subs))) ->
  forall node s, Statement.init node = Ok s -> P node s.
Proof.
  intros step node.
  induction node as [node IH] using (induction_ltof1 _ size).
  unfold ltof in IH. intros s H.
  destruct node as [data children | ty v]; [|discriminate].
  apply Statement_init_Ok in H as (Hd & nodes & subs & Hnodes & Hsubs & ->).
  apply (step _ _ nodes); [exact Hd | exact Hnodes |].
  apply spec_sub_statement_nodes_smaller in Hnodes.
  apply mapM_Ok_Forall2 in Hsubs.
  clear step Hd. induction Hsubs as [|c sub nodes subs Hc _ IHsubs];
    constructor.
  - split; [exact Hc|]. apply (IH c); [|exact Hc].
    inversion Hnodes; assumption.
  - apply IHsubs. inversion Hnodes; assumption.
Qed.

Lemma Forall_flat_map {A B : Type} (P : B -> Prop) (f : A -> list B)
  (l : list A) :
  Forall P (flat_map f l) <-> Forall (fun x => Forall P (f x)) l.
Proof.
  induction l as [|x l IH]; cbn [flat_map].
  - split; constructor.
  - rewrite Forall_app, IH. split.
    + intros [H1 H2]. constructor; assumption.
    + intros H. inversion H; auto.
Qed.

(** X2. A built statement keeps the node it was built from, and it and
    every statement below it are what [Statement] builds from the node
    they keep; so the kind of each is the [data] of its node. *)
Theorem statement_round_trip (node : Node) (s : Statement.t) :
  Statement.init node = Ok s ->
  Statement.lark_node s = node
  /\ Forall (fun x =>
               Statement.init (Statement.lark_node x) = Ok x
               /\ attr_data (Statement.lark_node x) = Ok (Statement.kind x))
       (s :: Statement.all_sub_statements s).
Proof.
  intros H.
  assert (Hnode : forall n x, Statement.init n = Ok x ->
                              Statement.lark_node x = n
                              /\ attr_data n = Ok (Statement.kind x)).
  { intros [d ch | ty v] x Hx; [|discriminate].
    apply Statement_init_Ok in Hx as (_ & ? & ? & _ & _ & ->).
    split; reflexivity. }
  assert (Hall : Forall (fun x =>
                           Statement.init (Statement.lark_node x) = Ok x
                           /\ attr_data (Statement.lark_node x)
                              = Ok (Statement.kind x))
                   (Statement.all_sub_statements s)).
  { revert node s H.
    apply (Statement_built_ind
             (fun _ s => Forall _ (Statement.all_sub_statements s))).
    intros data children nodes subs _ _ Hsubs.
    cbn [Statement.all_sub_statements].
    apply Forall_flat_map.
    induction Hsubs as [|c sub nodes subs [Hc Hbelow] _ IHsubs];
      constructor; [|exact IHsubs].
    destruct (Hnode _ _ Hc) as [Hl Hk].
    constructor; [|exact Hbelow].
    rewrite Hl. split; [exact Hc | exact Hk]. }
  destruct (Hnode _ _ H) as [Hl Hk].
  split; [exact Hl|]. constructor; [|exact Hall].
  rewrite Hl. split; [exact H | exact Hk].
Qed.

Lemma statement_round_trip_witness :
  Statement.init sample_baz = Ok sample_baz_statement
  /\ Statement.lark_node sample_baz_statement = sample_baz
  /\ Forall (fun x =>
               Statement.init (Statement.lark_node x) = Ok x
               /\ attr_data (Statement.lark_node x) = Ok (Statement.kind x))
       (sample_baz_statement
          :: Statement.all_sub_statements sample_baz_statement).
Proof.
  split; [reflexivity|].
  apply (statement_round_trip sample_baz sample_baz_statement).
  reflexivity.
Defined.

Lemma flatten_preorder (nodes : list Node) (subs : list Statement.t) :
  mapM Statement.init nodes = Ok subs ->
  flat_map (fun c => [c] ++ Statement.all_sub_statements c) subs
  = flat_map preorder subs.
Proof.
  intros H. apply mapM_Ok_Forall2 in H.
  apply flat_map_ext_Forall.
  induction H as [|c sub nodes subs Hc _ IH]; constructor; [|exact IH].
  rewrite preorder_eq, <- (built_all_sub_statements _ _ Hc). reflexivity.
Qed.

Lemma slice_kind_nodes (kind : string) (children : list Node) :
  slice_kind kind = true ->
  disallowed_kind kind = false
  /\ spec_sub_statement_nodes (Tree kind children)
     = Ok (skipn (slice_start kind) children).
Proof.
  unfold slice_kind, str_in. cbn [existsb]. intros H.
  repeat (apply orb_true_iff in H as [H | H]);
    try discriminate; apply String.eqb_eq in H; subst kind;
    split; reflexivity.
Qed.

(** X3. The four slice rules.  A [func_def], [static_func_def] or
    [while_stmt] tree builds exactly when each child from index 1 on
    builds, a [for_stmt] tree when each child from index 2 on does; the
    children before are not looked at, and a tree with too few children
    builds a statement without sub-statements.  The result holds the
    built children and, flattened, their pre-order listings. *)
Theorem slice_rules (kind : string) (children : list Node)
  (s : Statement.t) :
  slice_kind kind = true ->
  Statement.init (Tree kind children) = Ok s <->
  exists subs,
    mapM Statement.init (skipn (slice_start kind) children) = Ok subs
    /\ s = Statement.Build (Tree kind children) kind subs
             (flat_map preorder subs).
Proof.
  intros Hk.
  destruct (slice_kind_nodes kind children Hk) as [Hd Hnodes].
  rewrite Statement_init_Ok. split.
  - intros (_ & nodes & subs & Hn & Hsubs & ->).
    rewrite Hnodes in Hn. injection Hn as <-.
    exists subs. split; [exact Hsubs|].
    rewrite (flatten_preorder _ _ Hsubs). reflexivity.
  - intros (subs & Hsubs & ->). split; [exact Hd|].
    exists (skipn (slice_start kind) children), subs.
    split; [exact Hnodes|]. split; [exact Hsubs|].
    rewrite (flatten_preorder _ _ Hsubs). reflexivity.
Qed.

Lemma slice_rules_witness :
  Statement.init
    (Tree "for_stmt" [Token "NAME" "i"; sample_class_def; sample_if_stmt])
  = Ok (Statement.Build
          (Tree "for_stmt" [Token "NAME" "i"; sample_class_def; sample_if_stmt])
          "for_stmt" [sample_if_statement] (preorder sample_if_statement))
  <->
  exists subs,
    mapM Statement.init
      (skipn (slice_start "for_stmt")
         [Token "NAME" "i"; sample_class_def; sample_if_stmt]) = Ok subs
    /\ Statement.Build
         (Tree "for_stmt" [Token "NAME" "i"; sample_class_def; sample_if_stmt])
         "for_stmt" [sample_if_statement] (preorder sample_if_statement)
       = Statement.Build
           (Tree "for_stmt"
              [Token "NAME" "i"; sample_class_def; sample_if_stmt])
           "for_stmt" subs (flat_map preorder subs).
Proof.
  apply (slice_rules "for_stmt"). reflexivity.
Defined.

(** Too few children for the slice: no sub-statements, no error. *)
Example for_stmt_without_body :
  Statement.init (Tree "for_stmt" [Token "NAME" "i"])
  = Ok (Statement.Build (Tree "for_stmt" [Token "NAME" "i"]) "for_stmt" [] []).
Proof. reflexivity. Qed.

(** X4. The rule of [match_stmt].  Every child of the tree is taken for
    a branch, the first one included: each must be a tree, and gives one
    statement per child of its own from index 1 on; the sub-statements are
    these, branch after branch. *)
Theorem match_stmt_sub_statements (branches : list Node) (s : Statement.t) :
  Statement.init (Tree "match_stmt" branches) = Ok s ->
  exists parts : list (list Statement.t),
    Forall2
      (fun branch part =>
         exists bdata bchildren,
           branch = Tree bdata bchildren /\
           mapM Statement.init (skipn 1 bchildren) = Ok part)
      branches parts
    /\ Statement.sub_statements s = concat parts.
Proof.
  intros H. rewrite init_Tree in H.
  unfold Statement._load_sub_statements in H.
  cbn [Statement.kind Statement.lark_node Statement.sub_statements
       Statement.all_sub_statements children_of] in H.
  change ("match_stmt" =? "class_def") with false in H.
  change ("match_stmt" =? "property_body_def") with false in H.
  change (str_in "match_stmt" ["func_def"; "static_func_def"]) with false in H.
  change ("match_stmt" =? "if_stmt") with false in H.
  change ("match_stmt" =? "while_stmt") with false in H.
  change ("match_stmt" =? "for_stmt") with false in H.
  change ("match_stmt" =? "match_stmt") with true in H.
  cbv iota in H.
  apply bind_Ok in H as (subs & Hsubs & [= <-]).
  cbn [Statement.sub_statements].
  rewrite match_branch_loop, foldM_append in Hsubs.
  apply bind_Ok in Hsubs as (parts & Hparts & [= <-]).
  exists parts. split; [|reflexivity].
  apply mapM_Ok_Forall2 in Hparts.
  eapply Forall2_impl; [|exact Hparts].
  intros [bdata bchildren | ty v] part Hb; [|discriminate].
  exists bdata, bchildren. split; [reflexivity | exact Hb].
Qed.

Lemma match_stmt_sub_statements_witness :
  let branches :=
    [Tree "expr" [Token "NAME" "x"];
     Tree "match_branch" [Token "NUMBER" "1"; sample_pass];
     Tree "match_branch" [Token "NUMBER" "2"; sample_if_stmt]] in
  let s :=
    Statement.Build (Tree "match_stmt" branches) "match_stmt"
      [sample_pass_statement; sample_if_statement]
      (sample_pass_statement :: preorder sample_if_statement) in
  Statement.init (Tree "match_stmt" branches) = Ok s
  /\ exists parts : list (list Statement.t),
       Forall2
         (fun branch part =>
            exists bdata bchildren,
              branch = Tree bdata bchildren /\
              mapM Statement.init (skipn 1 bchildren) = Ok part)
         branches parts
       /\ Statement.sub_statements s = concat parts.
Proof.
  cbv zeta. split; [reflexivity|].
  apply match_stmt_sub_statements. reflexivity.
Defined.

(** A matched expression that is a token stops the construction. *)
Example match_on_token_raises :
  Statement.init
    (Tree "match_stmt"
       [Token "NAME" "x"; Tree "match_branch" [Token "NUMBER" "1"; sample_pass]])
  = Err AttributeError.
Proof. reflexivity. Qed.

(** X5. In a built statement, [all_sub_statements] holds every direct
    sub-statement, and with any statement it holds everything that
    statement's own [all_sub_statements] holds. *)
Theorem all_sub_statements_closed (node : Node) (s : Statement.t) :
  Statement.init node = Ok s ->
  incl (Statement.sub_statements s) (Statement.all_sub_statements s)
  /\ forall x,
       In x (Statement.all_sub_statements s) ->
       incl (Statement.all_sub_statements x) (Statement.all_sub_statements s).
Proof.
  intros H. split.
  - destruct node as [data children | ty v]; [|discriminate].
    apply Statement_init_Ok in H as (_ & nodes & subs & _ & _ & ->).
    cbn [Statement.sub_statements Statement.all_sub_statements].
    intros c Hc. apply in_flat_map. exists c. split; [exact Hc|].
    left. reflexivity.
  - revert node s H.
    apply (Statement_built_ind
             (fun _ s => forall x,
                  In x (Statement.all_sub_statements s) ->
                  incl (Statement.all_sub_statements x)
                    (Statement.all_sub_statements s))).
    intros data children nodes subs _ _ Hsubs.
    assert (HP : Forall
                   (fun sub => forall x,
                        In x (Statement.all_sub_statements sub) ->
                        incl (Statement.all_sub_statements x)
                          (Statement.all_sub_statements sub)) subs).
    { induction Hsubs as [|n sub ns subs' [_ Hsub] _ IH]; constructor;
        assumption. }
    rewrite Forall_forall in HP.
    intros x Hx. cbn [Statement.all_sub_statements] in *.
    apply in_flat_map in Hx as (c & Hc & Hx).
    intros y Hy. apply in_flat_map. exists c. split; [exact Hc|].
    destruct Hx as [<- | Hx]; right; [exact Hy|].
    exact (HP c Hc x Hx y Hy).
Qed.

Lemma all_sub_statements_closed_witness :
  Statement.init sample_baz = Ok sample_baz_statement
  /\ incl (Statement.sub_statements sample_baz_statement)
       (Statement.all_sub_statements sample_baz_statement)
  /\ forall x,
       In x (Statement.all_sub_statements sample_baz_statement) ->
       incl (Statement.all_sub_statements x)
         (Statement.all_sub_statements sample_baz_statement).
Proof.
  split; [reflexivity|].
  apply (all_sub_statements_closed sample_baz sample_baz_statement).
  reflexivity.
Defined.

(** ** Statement: how much is built *)

Lemma sum_size_skipn (n : nat) (l : list Node) :
  list_sum (map size (skipn n l)) <= list_sum (map size l).
Proof.
  pose proof (f_equal (fun x => list_sum (map size x)) (firstn_skipn n l))
    as H.
  cbv beta in H. rewrite map_app, list_sum_app in H. lia.
Qed.

Lemma sum_size_branches (h : Node -> result (list Node))
  (children : list Node) (parts : list (list Node)) :
  (forall b p, h b = Ok p -> list_sum (map size p) < size b) ->
  mapM h children = Ok parts ->
  list_sum (map size (concat parts)) <= list_sum (map size children).
Proof.
  intros Hh. revert parts.
  induction children as [|b children IH]; intros parts H.
  - injection H as <-. reflexivity.
  - rewrite mapM_cons in H.
    apply bind_Ok in H as (p & Hp & H).
    apply bind_Ok in H as (parts' & Hparts & [= <-]).
    cbn [concat map]. rewrite map_app, list_sum_app.
    change (list_sum (size b :: map size children))
      with (size b + list_sum (map size children)).
    specialize (Hh _ _ Hp). specialize (IH _ Hparts). lia.
Qed.

(** The nodes of a statement's rule are disjoint parts of the tree. *)
Lemma spec_sub_statement_nodes_sum (node : Node) (nodes : list Node) :
  spec_sub_statement_nodes node = Ok nodes ->
  list_sum (map size nodes) < size node.
Proof.
  destruct node as [kind children | ty v]; [|discriminate].
  unfold spec_sub_statement_nodes.
  change (size (Tree kind children))
    with (S (list_sum (map size children))).
  assert (Hslice : forall n,
             list_sum (map size (skipn n children))
             < S (list_sum (map size children))).
  { intros n. pose proof (sum_size_skipn n children). lia. }
  assert (Hbranches : forall h,
             (forall b p, h b = Ok p -> list_sum (map size p) < size b) ->
             (parts <- mapM h children ;; Ok (concat parts)) = Ok nodes ->
             list_sum (map size nodes) < S (list_sum (map size children))).
  { intros h Hh H. apply bind_Ok in H as (parts & Hparts & [= <-]).
    pose proof (sum_size_branches h _ _ Hh Hparts). lia. }
  destruct (str_in kind ["func_def"; "static_func_def"]).
  { intros [= <-]. apply (Hslice 1). }
  destruct (kind =? "if_stmt").
  { apply Hbranches. intros [bd bch | ty v] p; [|discriminate].
    unfold spec_if_branch_nodes.
    change (size (Tree bd bch)) with (S (list_sum (map size bch))).
    destruct (str_in bd _); intros [= <-].
    - pose proof (sum_size_skipn 1 bch) as Hs. apply le_n_S, Hs.
    - apply Nat.lt_succ_diag_r. }
  destruct (kind =? "while_stmt").
  { intros [= <-]. apply (Hslice 1). }
  destruct (kind =? "for_stmt").
  { intros [= <-]. apply (Hslice 2). }
  destruct (kind =? "match_stmt").
  { apply Hbranches. intros [bd bch | ty v] p; [|discriminate].
    unfold spec_match_branch_nodes.
    change (size (Tree bd bch)) with (S (list_sum (map size bch))).
    intros [= <-].
    pose proof (sum_size_skipn 1 bch) as Hs. apply le_n_S, Hs. }
  intros [= <-]. apply Nat.lt_0_succ.
Qed.

(** X6. A statement and the statements below it are fewer than the nodes
    and tokens of the tree it is built from: a statement is built from a
    tree of the parse tree, and no tree is built twice. *)
Theorem statements_bounded_by_size (node : Node) (s : Statement.t) :
  Statement.init node = Ok s ->
  S (length (Statement.all_sub_statements s)) <= size node.
Proof.
  revert node s.
  apply (Statement_built_ind
           (fun node s => S (length (Statement.all_sub_statements s))
                          <= size node)).
  intros data children nodes subs _ Hnodes Hsubs.
  apply spec_sub_statement_nodes_sum in Hnodes.
  cbn [Statement.all_sub_statements].
  enough (length (flat_map
                    (fun c => [c] ++ Statement.all_sub_statements c) subs)
          <= list_sum (map size nodes)) by lia.
  clear Hnodes.
  induction Hsubs as [|c sub nodes subs [_ Hc] _ IH]; [reflexivity|].
  cbn [flat_map map]. rewrite length_app.
  change (list_sum (size c :: map size nodes))
    with (size c + list_sum (map size nodes)).
  cbn [app length]. apply Nat.add_le_mono; [exact Hc | exact IH].
Qed.

Lemma statements_bounded_by_size_witness :
  Statement.init sample_baz = Ok sample_baz_statement
  /\ S (length (Statement.all_sub_statements sample_baz_statement))
     <= size sample_baz.
Proof.
  split; [reflexivity|].
  apply (statements_bounded_by_size sample_baz sample_baz_statement).
  reflexivity.
Defined.

(** ** Function: name, body and failures *)

(** X7. A function built from a [func_def] tree is named by the value of
    the token the name helper finds in the header, the first child; its
    sub-statements are the statements of the children after the header,
    which is not itself built as a statement; the function keeps the
    tree and its kind. *)
Theorem function_name_and_body {U : Utils} (func_header : Node)
  (body : list Node) (f : Function.t) :
  Function.init (Tree "func_def" (func_header :: body)) = Ok f ->
  (exists type,
      find_name_token_among_children func_header
        = Some (Token type (Function.name f)))
  /\ mapM Statement.init body
     = Ok (Statement.sub_statements (Function.super f))
  /\ Statement.lark_node (Function.super f)
     = Tree "func_def" (func_header :: body)
  /\ Statement.kind (Function.super f) = "func_def".
Proof.
  intros H.
  apply Function_init_Ok in H
    as (super & data & hdr & rest & name & args & ps
        & Hsuper & [= <- <- <-] & Hname & _ & _ & ->).
  cbn [Function.super Function.name].
  apply attr_value_Ok in Hname.
  apply Statement_init_Ok in Hsuper as (_ & nodes & subs & Hn & Hsubs & ->).
  injection Hn as <-.
  cbn [Statement.sub_statements Statement.lark_node Statement.kind].
  repeat split; assumption.
Qed.

Lemma function_name_and_body_witness :
  @Function.init spec_utils sample_bar = Ok sample_bar_function
  /\ (exists type,
         spec_find_name_token_among_children
           (Tree "func_header" [Token "NAME" "bar"; sample_func_args])
           = Some (Token type (Function.name sample_bar_function)))
  /\ mapM Statement.init [sample_pass]
     = Ok (Statement.sub_statements (Function.super sample_bar_function))
  /\ Statement.lark_node (Function.super sample_bar_function) = sample_bar
  /\ Statement.kind (Function.super sample_bar_function) = "func_def".
Proof.
  split; [reflexivity|].
  apply (@function_name_and_body spec_utils
           (Tree "func_header" [Token "NAME" "bar"; sample_func_args])
           [sample_pass] sample_bar_function).
  reflexivity.
Defined.

Lemma spec_sub_statement_nodes_no_children (data : string) :
  spec_sub_statement_nodes (Tree data []) = Ok [].
Proof.
  unfold spec_sub_statement_nodes.
  repeat match goal with
         | |- context [if ?b then _ else _] => destruct b
         end; reflexivity.
Qed.

(** X8. [Function] on a tree without children raises [IndexError]: its
    statement part builds, with no sub-statements, and reading the header
    at index 0 fails.  This holds for every kind that [Statement] does
    not refuse, and whatever the helpers are. *)
Theorem function_without_children {U : Utils} (data : string) :
  disallowed_kind data = false ->
  Statement.init (Tree data [])
    = Ok (Statement.Build (Tree data []) data [] [])
  /\ Function.init (Tree data []) = Err IndexError.
Proof.
  intros Hd.
  assert (Hs : Statement.init (Tree data [])
               = Ok (Statement.Build (Tree data []) data [] [])).
  { rewrite (Statement_init_nodes _ _ [] Hd
               (spec_sub_statement_nodes_no_children data)).
    reflexivity. }
  split; [exact Hs|].
  unfold Function.init. rewrite Hs. reflexivity.
Qed.

Lemma function_without_children_witness :
  Statement.init (Tree "func_def" [])
    = Ok (Statement.Build (Tree "func_def" []) "func_def" [] [])
  /\ @Function.init spec_utils (Tree "func_def" []) = Err IndexError.
Proof.
  apply (@function_without_children spec_utils "func_def"). reflexivity.
Defined.

(** X9. When the statement part of a function builds but one of the two
    lookups in the header finds nothing, [Function] raises
    [AttributeError]: the attribute is read off [None]. *)
Theorem function_lookup_failure {U : Utils} (data : string)
  (func_header : Node) (body : list Node) (s : Statement.t) :
  Statement.init (Tree data (func_header :: body)) = Ok s ->
  find_name_token_among_children func_header = None
  \/ find_tree_among_children "func_args" func_header = None ->
  Function.init (Tree data (func_header :: body)) = Err AttributeError.
Proof.
  intros Hs Hnone.
  unfold Function.init, Function._load_data_from_func_def.
  rewrite Hs. cbn [bind attr_children].
  destruct Hnone as [Hn | Ht].
  - rewrite Hn. reflexivity.
  - rewrite Ht.
    destruct (find_name_token_among_children func_header) as [[? ?|? ?]|];
      reflexivity.
Qed.

Lemma function_lookup_failure_witness :
  Statement.init (Tree "func_def" [Tree "func_header" []; sample_pass])
    = Ok (Statement.Build
            (Tree "func_def" [Tree "func_header" []; sample_pass])
            "func_def" [sample_pass_statement] [sample_pass_statement])
  /\ @Function.init spec_utils
       (Tree "func_def" [Tree "func_header" []; sample_pass])
     = Err AttributeError.
Proof.
  split; [reflexivity|].
  apply (@function_lookup_failure spec_utils "func_def"
           (Tree "func_header" []) [sample_pass]
           (Statement.Build
              (Tree "func_def" [Tree "func_header" []; sample_pass])
              "func_def" [sample_pass_statement] [sample_pass_statement])).
  - reflexivity.
  - left. reflexivity.
Defined.

(** X10. The comprehension over the children of the parameter list is
    [Parameter] over the children that are not [trailing_comma] markers,
    errors included: nothing is read from a marker, so a marker may have
    any children, and every other child, tree or token, succeeds or fails
    as [Parameter] does on it. *)
Theorem load_parameters_filter (args : list Node) :
  Function.load_parameters args
  = mapM Parameter_.init (filter (fun c => negb (is_trailing_comma c)) args).
Proof.
  induction args as [|c args IH]; [reflexivity|].
  rewrite load_parameters_cons.
  destruct c as [data children | ty v];
    cbn [attr_data bind filter is_trailing_comma negb].
  - destruct (data =? "trailing_comma"); cbn [negb]; [exact IH|].
    rewrite mapM_cons, IH. reflexivity.
  - rewrite mapM_cons. reflexivity.
Qed.

(** ** Class: the children the loop acts on *)

(** X11. The loop over the children of a class acts on [class_def] and
    [func_def] trees only: tokens and trees of any other kind are passed
    over without being read, so the loop gives the same class, or raises
    the same exception, as on the [class_def] and [func_def] children
    alone. *)
Theorem class_ignores_other_children {U : Utils} (self : Class_.t)
  (data : string) (children : list Node) :
  Class_._load_data_from_node_children Class_.init self (Tree data children)
  = Class_._load_data_from_node_children Class_.init self
      (Tree data (filter is_class_member children)).
Proof.
  unfold Class_._load_data_from_node_children. revert self.
  induction children as [|stmt children IH]; intros self; [reflexivity|].
  cbn [filter]. unfold is_class_member at 1.
  destruct (is_kind "class_def" stmt) eqn:Hc; cbn [orb].
  - rewrite !foldM_cons. apply bind_ext. intros self'. apply IH.
  - destruct (is_kind "func_def" stmt) eqn:Hf.
    + rewrite !foldM_cons. apply bind_ext. intros self'. apply IH.
    + rewrite foldM_cons, (load_child_other _ _ Hc Hf). apply IH.
Qed.

(** Variables, signals and stray statements between the members. *)
Example class_other_children :
  @Class_.init spec_utils
    (Tree "start"
       [Tree "class_var_stmt" [Token "NAME" "x"]; sample_class_def;
        Tree "property_body_def" []; Token "_NL" ""; sample_baz;
        Tree "signal_stmt" []])
  = Ok (Class_.Build
          (Tree "start"
             [Tree "class_var_stmt" [Token "NAME" "x"]; sample_class_def;
              Tree "property_body_def" []; Token "_NL" ""; sample_baz;
              Tree "signal_stmt" []])
          None [sample_Foo] [sample_Foo] [sample_baz_function]
          [sample_bar_function; sample_baz_function]).
Proof. reflexivity. Qed.

(** ** Class: the tree of classes *)

Section ClassTree.
Context {U : Utils}.

Lemma Class_ind_nested (P : Class_.t -> Prop) :
  (forall node name subs all fs all_fs,
      Forall P subs -> P (Class_.Build node name subs all fs all_fs)) ->
  forall c, P c.
Proof.
  intros step.
  fix IH 1.
  intros [node name subs all fs all_fs]. apply step.
  induction subs as [|sc subs IHsubs]; constructor.
  - apply IH.
  - exact IHsubs.
Qed.

Lemma filter_smaller (p : Node -> bool) (data : string)
  (children : list Node) :
  Forall (fun n => p n = true /\ size n < size (Tree data children))
    (filter p children).
Proof.
  apply Forall_forall. intros n Hn. apply filter_In in Hn as [Hin Hp].
  split; [exact Hp | apply In_children_size, Hin].
Qed.

(** Induction over successful constructions of classes that keeps, for
    every direct sub-class, the [class_def] child it was built from. *)
Lemma Class_built_ind (P : Node -> Class_.t -> Prop) :
  (forall data children c,
      Class_.init (Tree data children) = Ok c ->
      Forall2 (fun n sc => is_kind "class_def" n = true
                           /\ Class_.init n = Ok sc /\ P n sc)
        (filter (is_kind "class_def") children) (Class_.sub_classes c) ->
      P (Tree data children) c) ->
  forall node c, Class_.init node = Ok c -> P node c.
Proof.
  intros step node.
  induction node as [node IH] using (induction_ltof1 _ size).
  unfold ltof in IH. intros c H.
  destruct node as [data children | ty v]; [|discriminate].
  apply step; [exact H|].
  apply Class_init_Ok in H
    as (data' & children' & subs & fs & parts
        & [= <- <-] & _ & Hsubs & _ & _ & Hc).
  rewrite Hc. cbn [Class_.sub_classes].
  apply mapM_Ok_Forall2 in Hsubs.
  pose proof (filter_smaller (is_kind "class_def") data children) as Hsmall.
  clear Hc step.
  induction Hsubs as [|n sc ns subs Hn _ IHsubs]; constructor.
  - inversion Hsmall as [|? ? [Hk Hlt] _]; subst.
    split; [exact Hk|]. split; [exact Hn|]. apply (IH n Hlt _ Hn).
  - apply IHsubs. inversion Hsmall; assumption.
Qed.

Lemma class_preorder_eq (c : Class_.t) :
  class_preorder c = c :: flat_map class_preorder (Class_.sub_classes c).
Proof. destruct c; reflexivity. Qed.

Lemma class_descendants_eq (c : Class_.t) :
  class_descendants c
  = list_sum (map (fun sc => S (class_descendants sc)) (Class_.sub_classes c)).
Proof. destruct c; reflexivity. Qed.

Lemma length_class_preorder (c : Class_.t) :
  length (class_preorder c) = S (class_descendants c).
Proof.
  induction c as [node name subs all fs all_fs IH] using Class_ind_nested.
  rewrite class_preorder_eq, class_descendants_eq.
  cbn [Class_.sub_classes length]. f_equal. rewrite length_flat_map.
  induction IH as [|sc subs Hsc _ IHsubs]; [reflexivity|].
  cbn [map]. rewrite Hsc.
  change (list_sum (?x :: ?l)) with (x + list_sum l).
  rewrite IHsubs. reflexivity.
Qed.

(** What [Class] builds lists, below itself, the pre-order listings of
    its direct sub-classes. *)
Lemma built_all_sub_classes (node : Node) (c : Class_.t) :
  Class_.init node = Ok c ->
  Class_.all_sub_classes c = flat_map class_preorder (Class_.sub_classes c).
Proof.
  revert node c.
  apply (Class_built_ind
           (fun _ c => Class_.all_sub_classes c
                       = flat_map class_preorder (Class_.sub_classes c))).
  intros data children c H Hsubs.
  apply Class_init_Ok in H
    as (data' & children' & subs & fs & parts & _ & _ & _ & _ & _ & Hc).
  rewrite Hc in Hsubs |- *.
  cbn [Class_.sub_classes Class_.all_sub_classes] in *. clear Hc.
  apply flat_map_ext_Forall.
  induction Hsubs as [|n sc ns subs' (_ & _ & Hsc) _ IHsubs];
    constructor; [|exact IHsubs].
  rewrite class_preorder_eq, <- Hsc. reflexivity.
Qed.

End ClassTree.

(** X12. In a built class, [all_sub_classes] is the depth-first
    pre-order listing of the classes below it: the pre-order listings of
    its direct sub-classes, one after the other; it has as many entries as
    there are classes below. *)
Theorem all_sub_classes_preorder {U : Utils} (node : Node) (c : Class_.t) :
  Class_.init node = Ok c ->
  Class_.all_sub_classes c = flat_map class_preorder (Class_.sub_classes c)
  /\ length (Class_.all_sub_classes c) = class_descendants c.
Proof.
  intros H. pose proof (built_all_sub_classes _ _ H) as Hpre.
  split; [exact Hpre|].
  rewrite Hpre, length_flat_map, class_descendants_eq.
  f_equal. apply map_ext. intros sc. apply length_class_preorder.
Qed.

Lemma all_sub_classes_preorder_witness :
  @Class_.init spec_utils sample_file = Ok sample_root_class
  /\ Class_.all_sub_classes sample_root_class
     = flat_map class_preorder (Class_.sub_classes sample_root_class)
  /\ length (Class_.all_sub_classes sample_root_class)
     = class_descendants sample_root_class.
Proof.
  split; [reflexivity|].
  apply (@all_sub_classes_preorder spec_utils sample_file sample_root_class).
  reflexivity.
Defined.

(** ** Class: the functions of a class and of the classes below *)

Section ClassFunctions.
Context {U : Utils}.

(** What the children contribute, regrouped: the functions of the
    [func_def] children and all the functions of the classes of the
    [class_def] children. *)
Lemma contributions_regrouped (children : list Node)
  (parts : list (list Function.t)) (subs : list Class_.t)
  (fs : list Function.t) :
  Forall2 contributes children parts ->
  mapM Class_.init (filter (is_kind "class_def") children) = Ok subs ->
  mapM Function.init (filter (is_kind "func_def") children) = Ok fs ->
  Permutation (concat parts) (fs ++ flat_map Class_.all_functions subs).
Proof.
  intros Hparts. revert subs fs.
  induction Hparts as [|x part children parts Hx _ IH]; intros subs fs Hs Hf.
  - injection Hs as <-. injection Hf as <-. constructor.
  - cbn [filter concat] in *. unfold contributes in Hx.
    destruct (is_kind "class_def" x) eqn:Hc.
    + rewrite (is_kind_class_def_func_def _ Hc) in Hf.
      destruct Hx as (sub & Hsub & ->).
      rewrite mapM_cons, Hsub in Hs. cbn [bind] in Hs.
      apply bind_Ok in Hs as (subs' & Hs & [= <-]).
      cbn [flat_map].
      rewrite (Permutation_app_swap_app fs).
      apply Permutation_app_head, IH; assumption.
    + destruct (is_kind "func_def" x) eqn:Hfd.
      * destruct Hx as (f & Hfun & ->).
        rewrite mapM_cons, Hfun in Hf. cbn [bind] in Hf.
        apply bind_Ok in Hf as (fs' & Hf & [= <-]).
        cbn [app]. apply perm_skip, IH; assumption.
      * subst part. cbn [app]. apply IH; assumption.
Qed.

Lemma Forall2_right {A B : Type} (R : A -> B -> Prop) (Q : B -> Prop)
  (l : list A) (l' : list B) :
  (forall a b, R a b -> Q b) -> Forall2 R l l' -> Forall Q l'.
Proof.
  intros HR H. induction H as [|a b l l' Hab _ IH]; constructor;
    [exact (HR a b Hab) | exact IH].
Qed.

(** The pieces of a built class, once more, for the proofs below. *)
Lemma Class_init_pieces (data : string) (children : list Node)
  (c : Class_.t) :
  Class_.init (Tree data children) = Ok c ->
  Class_.lark_node c = Tree data children
  /\ (data = "start" /\ Class_.name c = None
      \/ data = "class_def" /\ exists value, Class_.name c = Some value)
  /\ mapM Function.init (filter (is_kind "func_def") children)
     = Ok (Class_.functions c)
  /\ Class_.all_sub_classes c
     = flat_map (fun sc => [sc] ++ Class_.all_sub_classes sc)
         (Class_.sub_classes c)
  /\ Permutation (Class_.all_functions c)
       (Class_.functions c
          ++ flat_map Class_.all_functions (Class_.sub_classes c)).
Proof.
  intros H.
  apply Class_init_Ok in H
    as (data' & children' & subs & fs & parts
        & [= <- <-] & Hname & Hsubs & Hfs & Hparts & Hc).
  rewrite Hc.
  cbn [Class_.lark_node Class_.name Class_.sub_classes
       Class_.all_sub_classes Class_.functions Class_.all_functions].
  split; [reflexivity|]. split.
  { destruct Hname as [[-> Hn] | [-> (ty & v & _ & Hn)]]; [left | right];
      split; [reflexivity | exact Hn | reflexivity | eauto]. }
  split; [exact Hfs|]. split; [reflexivity|].
  apply (contributions_regrouped children parts subs fs); assumption.
Qed.

Lemma flat_map_functions_below (subs : list Class_.t) :
  flat_map Class_.functions
    (flat_map (fun sc => [sc] ++ Class_.all_sub_classes sc) subs)
  = flat_map (fun sc => flat_map Class_.functions
                          (sc :: Class_.all_sub_classes sc)) subs.
Proof.
  induction subs as [|sc subs IH]; [reflexivity|].
  cbn [flat_map]. rewrite flat_map_app, IH. reflexivity.
Qed.

Lemma Permutation_flat_map_Forall2 {A B C : Type} (R : A -> B -> Prop)
  (f g : B -> list C) (l : list A) (l' : list B) :
  (forall a b, R a b -> Permutation (f b) (g b)) ->
  Forall2 R l l' -> Permutation (flat_map f l') (flat_map g l').
Proof.
  intros HR H. induction H as [|a b l l' Hab _ IH]; [constructor|].
  cbn [flat_map]. apply Permutation_app; [exact (HR a b Hab) | exact IH].
Qed.

(** The functions listed by a built class are those of the class and of
    the classes below it. *)
Lemma built_all_functions (node : Node) (c : Class_.t) :
  Class_.init node = Ok c ->
  Permutation (Class_.all_functions c)
    (flat_map Class_.functions (c :: Class_.all_sub_classes c)).
Proof.
  revert node c.
  apply (Class_built_ind
           (fun _ c => Permutation (Class_.all_functions c)
                         (flat_map Class_.functions
                            (c :: Class_.all_sub_classes c)))).
  intros data children c H Hsubs.
  destruct (Class_init_pieces _ _ _ H) as (_ & _ & _ & Hall & Hperm).
  rewrite Hperm. cbn [flat_map]. apply Permutation_app_head.
  rewrite Hall, flat_map_functions_below.
  apply (Permutation_flat_map_Forall2 _ _ _ _ _ (fun n sc H => proj2 (proj2 H))
           Hsubs).
Qed.

(** A function built from a [func_def] tree keeps that tree. *)
Lemma Function_init_func_def (n : Node) (f : Function.t) :
  is_kind "func_def" n = true ->
  Function.init n = Ok f ->
  Function.init (Statement.lark_node (Function.super f)) = Ok f
  /\ Statement.kind (Function.super f) = "func_def".
Proof.
  intros Hk H. pose proof H as H'.
  apply Function_init_Ok in H'
    as (super & data & hdr & rest & name & args & ps
        & Hsuper & -> & _ & _ & _ & ->).
  cbn [is_kind] in Hk. apply String.eqb_eq in Hk. subst data.
  apply Statement_init_Ok in Hsuper as (_ & nodes & subs & _ & _ & ->).
  cbn [Function.super Statement.lark_node Statement.kind].
  split; [exact H | reflexivity].
Qed.

End ClassFunctions.

(** X13. The [all_functions] of a built class holds the functions of the
    class and of every class below it, each as often as it occurs there:
    it is a rearrangement of the [functions] lists of the class and of
    the classes of [all_sub_classes], put end to end. *)
Theorem all_functions_permutation {U : Utils} (node : Node)
  (c : Class_.t) :
  Class_.init node = Ok c ->
  Permutation (Class_.all_functions c)
    (flat_map Class_.functions (c :: Class_.all_sub_classes c))
  /\ length (Class_.all_functions c)
     = list_sum (map (fun x => length (Class_.functions x))
                   (c :: Class_.all_sub_classes c)).
Proof.
  intros H. pose proof (built_all_functions _ _ H) as Hperm.
  split; [exact Hperm|].
  rewrite (Permutation_length Hperm). apply length_flat_map.
Qed.

Lemma all_functions_permutation_witness :
  @Class_.init spec_utils sample_file = Ok sample_root_class
  /\ Permutation (Class_.all_functions sample_root_class)
       (flat_map Class_.functions
          (sample_root_class :: Class_.all_sub_classes sample_root_class))
  /\ length (Class_.all_functions sample_root_class)
     = list_sum (map (fun x => length (Class_.functions x))
                   (sample_root_class
                      :: Class_.all_sub_classes sample_root_class)).
Proof.
  split; [reflexivity|].
  apply (@all_functions_permutation spec_utils sample_file sample_root_class).
  reflexivity.
Defined.

(** X14. Every function in the [all_functions] of a built class was
    built from a [func_def] tree, which it keeps: its kind is [func_def],
    never [static_func_def], and [Function] on the tree it keeps gives the
    function back. *)
Theorem all_functions_are_func_def {U : Utils} (node : Node)
  (c : Class_.t) :
  Class_.init node = Ok c ->
  Forall (fun f =>
            Function.init (Statement.lark_node (Function.super f)) = Ok f
            /\ Statement.kind (Function.super f) = "func_def")
    (Class_.all_functions c).
Proof.
  revert node c.
  apply (Class_built_ind (fun _ c => Forall _ (Class_.all_functions c))).
  intros data children c H Hsubs.
  destruct (Class_init_pieces _ _ _ H) as (_ & _ & Hfs & _ & Hperm).
  apply (Permutation_Forall (Permutation_sym Hperm)).
  apply Forall_app. split.
  - apply mapM_Ok_Forall2 in Hfs.
    pose proof (filter_smaller (is_kind "func_def") data children) as Hk.
    clear Hperm.
    induction Hfs as [|n f ns fs Hn _ IH]; constructor.
    + inversion Hk as [|? ? [Hkn _] _]; subst.
      exact (Function_init_func_def n f Hkn Hn).
    + apply IH. inversion Hk; assumption.
  - apply Forall_flat_map.
    apply (Forall2_right _ _ _ _ (fun n sc H => proj2 (proj2 H)) Hsubs).
Qed.

Lemma all_functions_are_func_def_witness :
  @Class_.init spec_utils sample_file = Ok sample_root_class
  /\ Forall (fun f =>
               @Function.init spec_utils
                 (Statement.lark_node (Function.super f)) = Ok f
               /\ Statement.kind (Function.super f) = "func_def")
       (Class_.all_functions sample_root_class).
Proof.
  split; [reflexivity|].
  apply (@all_functions_are_func_def spec_utils sample_file
           sample_root_class).
  reflexivity.
Defined.

(** X15. Every class in the [all_sub_classes] of a built class was built
    from a [class_def] tree, which it keeps, and has a name; [Class] on
    the tree it keeps gives the class back.  Only the class of a [start]
    tree has no name. *)
Theorem sub_classes_named {U : Utils} (node : Node) (c : Class_.t) :
  Class_.init node = Ok c ->
  Class_.lark_node c = node
  /\ Forall (fun sc =>
               Class_.init (Class_.lark_node sc) = Ok sc
               /\ is_kind "class_def" (Class_.lark_node sc) = true
               /\ exists value, Class_.name sc = Some value)
       (Class_.all_sub_classes c).
Proof.
  intros H. split.
  { destruct node as [data children | ty v]; [|discriminate].
    apply (Class_init_pieces _ _ _ H). }
  revert node c H.
  apply (Class_built_ind (fun _ c => Forall _ (Class_.all_sub_classes c))).
  intros data children c H Hsubs.
  destruct (Class_init_pieces _ _ _ H) as (_ & _ & _ & -> & _).
  apply Forall_flat_map.
  eapply Forall2_right; [|exact Hsubs].
  clear. intros n sc (Hk & Hsc & Hbelow).
  constructor; [|exact Hbelow].
  destruct n as [data children | ty v]; [|discriminate].
  destruct (Class_init_pieces _ _ _ Hsc) as (-> & Hname & _).
  split; [exact Hsc|]. split; [exact Hk|].
  cbn [is_kind] in Hk. apply String.eqb_eq in Hk. subst data.
  destruct Hname as [[[=] _] | [_ Hname]]. exact Hname.
Qed.

Lemma sub_classes_named_witness :
  @Class_.init spec_utils sample_file = Ok sample_root_class
  /\ Class_.lark_node sample_root_class = sample_file
  /\ Forall (fun sc =>
               @Class_.init spec_utils (Class_.lark_node sc) = Ok sc
               /\ is_kind "class_def" (Class_.lark_node sc) = true
               /\ exists value, Class_.name sc = Some value)
       (Class_.all_sub_classes sample_root_class).
Proof.
  split; [reflexivity|].
  apply (@sub_classes_named spec_utils sample_file sample_root_class).
  reflexivity.
Defined.

(** X16. [Class] on a [class_def] tree reads the name before it looks at
    any child: when the name helper finds nothing in the tree, it raises
    [AttributeError] whatever the children are. *)
Theorem class_name_lookup_failure {U : Utils} (children : list Node) :
  find_name_token_among_children (Tree "class_def" children) = None ->
  Class_.init (Tree "class_def" children) = Err AttributeError.
Proof.
  intros Hnone. rewrite Class_init_Tree. cbv zeta.
  change ("class_def" =? "start") with false.
  change ("class_def" =? "class_def") with true. cbv iota.
  unfold Class_._load_data_from_class_def. rewrite Hnone. reflexivity.
Qed.

Lemma class_name_lookup_failure_witness :
  spec_find_name_token_among_children
    (Tree "class_def" [Tree "func_def" []; sample_bar]) = None
  /\ @Class_.init spec_utils
       (Tree "class_def" [Tree "func_def" []; sample_bar])
     = Err AttributeError.
Proof.
  split; [reflexivity|].
  apply (@class_name_lookup_failure spec_utils
           [Tree "func_def" []; sample_bar]).
  reflexivity.
Defined.

(** ** AbstractSyntaxTree: the whole file *)

(** X17. In a built [AbstractSyntaxTree], [all_classes] is the
    depth-first pre-order listing of the class tree under [root_class],
    and [all_functions] holds the functions of the classes of
    [all_classes], each as often as it occurs in their [functions]
    lists. *)
Theorem ast_lists {U : Utils} (parse_tree : Node)
  (ast : AbstractSyntaxTree.t) :
  AbstractSyntaxTree.init parse_tree = Ok ast ->
  AbstractSyntaxTree.all_classes ast
  = class_preorder (AbstractSyntaxTree.root_class ast)
  /\ Permutation (AbstractSyntaxTree.all_functions ast)
       (flat_map Class_.functions (AbstractSyntaxTree.all_classes ast)).
Proof.
  intros H. unfold AbstractSyntaxTree.init in H.
  apply bind_Ok in H as (root_class & Hroot & [= <-]).
  cbn [AbstractSyntaxTree.root_class AbstractSyntaxTree.all_classes
       AbstractSyntaxTree.all_functions].
  split.
  - rewrite class_preorder_eq, (built_all_sub_classes _ _ Hroot).
    reflexivity.
  - apply (built_all_functions _ _ Hroot).
Qed.

Lemma ast_lists_witness :
  @AbstractSyntaxTree.init spec_utils sample_file = Ok sample_ast
  /\ AbstractSyntaxTree.all_classes sample_ast
     = class_preorder (AbstractSyntaxTree.root_class sample_ast)
  /\ Permutation (AbstractSyntaxTree.all_functions sample_ast)
       (flat_map Class_.functions (AbstractSyntaxTree.all_classes sample_ast)).
Proof.
  split; [reflexivity|].
  apply (@ast_lists spec_utils sample_file sample_ast). reflexivity.
Defined.
